(** * WordCamp favourite sessions extractor: a shallow embedding

    This development embeds [wordcamp_favorites.py] in Rocq and settles the
    properties its specification states about it.

    Modelling conventions.
    - A Python [str] is a Rocq [string]; a character is a code point below
      256.  Every library routine below is exact on that alphabet unless its
      comment says otherwise.
    - A Python [dict] built by [parse_qs] is a [gmap string (list string)].
    - A decoded JSON value is the inductive [json]; JSON objects keep their
      insertion order, as Python dicts do.  Numbers are integers; JSON
      numbers with a fraction are outside the model.
    - Python exceptions are the error side of [result].
    - The network is a state-passing oracle; the file system is a [gmap]
      from file names to contents.  Console output ([print]) is not part of
      the model. *)

From Stdlib Require Import Ascii NArith ZArith DecimalString DecimalPos DecimalZ.
From stdpp Require Import base option list gmap strings.

Local Open Scope char_scope.

(** The proofs below compute with string concatenation. *)
#[local] Arguments String.append !_ _ / : simpl nomatch.

(** ** Python [str] methods used by the program *)
Module PyStr.

Definition code (c : ascii) : N := N_of_ascii c.

Definition between (lo hi : N) (c : ascii) : bool :=
  (lo <=? code c)%N && (code c <=? hi)%N.

(** [c in chars] for a one-character [c]. *)
Fixpoint in_chars (c : ascii) (chars : string) : bool :=
  match chars with
  | EmptyString => false
  | String d rest => Ascii.eqb c d || in_chars c rest
  end.

(** [str.isspace] on one character (Unicode white space below 256). *)
Definition isspace (c : ascii) : bool :=
  between 9 13 c || between 28 32 c || (code c =? 133)%N || (code c =? 160)%N.

Definition is_empty (s : string) : bool :=
  match s with EmptyString => true | String _ _ => false end.

(** Drop the longest prefix whose characters satisfy [p]. *)
Fixpoint lstrip_by (p : ascii -> bool) (s : string) : string :=
  match s with
  | EmptyString => EmptyString
  | String c rest => if p c then lstrip_by p rest else s
  end.

(** Drop the longest suffix whose characters satisfy [p]. *)
Fixpoint rstrip_by (p : ascii -> bool) (s : string) : string :=
  match s with
  | EmptyString => EmptyString
  | String c rest =>
      let r := rstrip_by p rest in
      if is_empty r && p c then EmptyString else String c r
  end.

(** [s.rstrip(chars)]: [chars] is a SET of characters, every trailing
    character that belongs to it is removed. *)
Definition rstrip (chars : string) (s : string) : string :=
  rstrip_by (fun c => in_chars c chars) s.

(** [s.strip()]: white space removed at both ends. *)
Definition strip (s : string) : string :=
  lstrip_by isspace (rstrip_by isspace s).

(** [s.split(sep)] for a one-character separator; never the empty list. *)
Fixpoint split (sep : ascii) (s : string) : list string :=
  match s with
  | EmptyString => [EmptyString]
  | String c rest =>
      if Ascii.eqb c sep then EmptyString :: split sep rest
      else match split sep rest with
           | tok :: toks => String c tok :: toks
           | [] => [String c EmptyString]
           end
  end.

(** [s.split(sep, 1)] when [sep] occurs: the text before and after its
    first occurrence ([None] when [sep] does not occur). *)
Fixpoint split_once (sep : ascii) (s : string) : option (string * string) :=
  match s with
  | EmptyString => None
  | String c rest =>
      if Ascii.eqb c sep then Some (EmptyString, rest)
      else match split_once sep rest with
           | Some (a, b) => Some (String c a, b)
           | None => None
           end
  end.

(** [sep.join(parts)]. *)
Fixpoint join (sep : string) (parts : list string) : string :=
  match parts with
  | [] => EmptyString
  | [p] => p
  | p :: rest => p +:+ sep +:+ join sep rest
  end.

(** [s.replace(old, new)] for a one-character [old]. *)
Fixpoint replace (old : ascii) (new : string) (s : string) : string :=
  match s with
  | EmptyString => EmptyString
  | String c rest =>
      if Ascii.eqb c old then new +:+ replace old new rest
      else String c (replace old new rest)
  end.

Definition is_upper (c : ascii) : bool := between 65 90 c.
Definition is_lower (c : ascii) : bool := between 97 122 c.
Definition is_digit (c : ascii) : bool := between 48 57 c.
Definition is_ascii_alpha (c : ascii) : bool := is_upper c || is_lower c.

(** ASCII lower-casing of one character. *)
Definition lower_char (c : ascii) : ascii :=
  if is_upper c then ascii_of_N (code c + 32) else c.

Fixpoint lower (s : string) : string :=
  match s with
  | EmptyString => EmptyString
  | String c rest => String (lower_char c) (lower rest)
  end.

(** [s.count(c)] for a one-character [c]. *)
Fixpoint count (c : ascii) (s : string) : nat :=
  match s with
  | EmptyString => 0
  | String d rest => (if Ascii.eqb d c then 1 else 0) + count c rest
  end.

Fixpoint forallb (p : ascii -> bool) (s : string) : bool :=
  match s with
  | EmptyString => true
  | String c rest => p c && forallb p rest
  end.

Fixpoint prefix (p s : string) : bool :=
  match p, s with
  | EmptyString, _ => true
  | String a p', String b s' => Ascii.eqb a b && prefix p' s'
  | String _ _, EmptyString => false
  end.

(** [sub in s] on two strings. *)
Fixpoint contains (sub s : string) : bool :=
  prefix sub s ||
  match s with
  | EmptyString => false
  | String _ rest => contains sub rest
  end.

Fixpoint drop (n : nat) (s : string) : string :=
  match n, s with
  | O, _ => s
  | S k, String _ rest => drop k rest
  | S _, EmptyString => EmptyString
  end.

End PyStr.

(** ** [urllib.parse]: the library routines the program calls

    These follow CPython's [urllib/parse.py] (3.12).  [urlsplit] can raise
    [ValueError] on a malformed bracketed host; that check is not modelled,
    so the model is exact on URLs whose authority has no square bracket. *)
Module UrlLib.
Import PyStr.

Record ParseResult := mkParseResult {
  scheme : string;
  netloc : string;
  path : string;
  params : string;
  query : string;
  fragment : string;
}.

Definition scheme_char (c : ascii) : bool :=
  is_ascii_alpha c || is_digit c || in_chars c "+-.".

Definition c0_control_or_space (c : ascii) : bool := (code c <=? 32)%N.

Definition unsafe_url_byte (c : ascii) : bool :=
  in_chars c (String "009" (String "013" (String "010" EmptyString))).

Fixpoint remove_chars (p : ascii -> bool) (s : string) : string :=
  match s with
  | EmptyString => EmptyString
  | String c rest =>
      if p c then remove_chars p rest else String c (remove_chars p rest)
  end.

(** The scheme test of [urlsplit]: a colon at a positive index, a letter
    first, and only scheme characters before the colon. *)
Definition split_scheme (url : string) : string * string :=
  match split_once ":" url with
  | Some (String c0 pre, rest) =>
      if is_ascii_alpha c0 && forallb scheme_char (String c0 pre)
      then (lower (String c0 pre), rest)
      else (EmptyString, url)
  | _ => (EmptyString, url)
  end.

(** [_splitnetloc(url, 2)] applied to the text after the two slashes: the
    authority runs up to the first of [/], [?] and [#]. *)
Fixpoint splitnetloc (s : string) : string * string :=
  match s with
  | EmptyString => (EmptyString, EmptyString)
  | String c rest =>
      if in_chars c "/?#" then (EmptyString, s)
      else let '(host, tail) := splitnetloc rest in (String c host, tail)
  end.

Definition split_at (sep : ascii) (s : string) : string * string :=
  match split_once sep s with
  | Some (a, b) => (a, b)
  | None => (s, EmptyString)
  end.

Definition urlsplit (url0 : string) : ParseResult :=
  let url := lstrip_by c0_control_or_space url0 in
  let url := remove_chars unsafe_url_byte url in
  let '(sch, url) := split_scheme url in
  let '(loc, url) :=
    match url with
    | String "/" (String "/" rest) => splitnetloc rest
    | _ => (EmptyString, url)
    end in
  let '(url, frag) := split_at "#" url in
  let '(url, qry) := split_at "?" url in
  mkParseResult sch loc url EmptyString qry frag.

Definition uses_params : list string :=
  [EmptyString; "ftp"; "hdl"; "prospero"; "http"; "imap"; "https"; "shttp";
   "rtsp"; "rtspu"; "sip"; "sips"; "mms"; "sftp"; "tel"]%string.

(** [_splitparams]: the parameters start at the first [;] of the last
    path segment. *)
Fixpoint splitparams (url : string) : string * string :=
  match url with
  | EmptyString => (EmptyString, EmptyString)
  | String c rest =>
      if in_chars "/" rest then
        let '(p, q) := splitparams rest in (String c p, q)
      else if Ascii.eqb c ";" then (EmptyString, rest)
      else let '(p, q) := splitparams rest in (String c p, q)
  end.

Definition urlparse (url : string) : ParseResult :=
  let r := urlsplit url in
  if bool_decide (scheme r ∈ uses_params) && in_chars ";" (path r) then
    let '(p, q) := splitparams (path r) in
    mkParseResult (scheme r) (netloc r) p q (query r) (fragment r)
  else r.

Definition hex_value (c : ascii) : option N :=
  if is_digit c then Some (code c - 48)%N
  else if between 65 70 c then Some (code c - 55)%N
  else if between 97 102 c then Some (code c - 87)%N
  else None.

(** [unquote]: every [%XX] with two hexadecimal digits becomes the
    character of that code; any other [%] stays.  Exact for escapes
    below [%80]; above, Python decodes the bytes as UTF-8, which can
    leave the alphabet of the model. *)
Fixpoint unquote (s : string) : string :=
  match s with
  | EmptyString => EmptyString
  | String c rest =>
      let keep := String c (unquote rest) in
      if Ascii.eqb c "%" then
        match rest with
        | String h (String l rest') =>
            match hex_value h, hex_value l with
            | Some a, Some b =>
                String (ascii_of_N (16 * a + b)) (unquote rest')
            | _, _ => keep
            end
        | _ => keep
        end
      else keep
  end.

End UrlLib.

(** [parse_qs] with its default arguments. *)
Module QueryString.
Import PyStr UrlLib.

(** [parse_qsl]: fields are separated by [&]; a field without [=] or with
    a blank value is skipped; [+] becomes a space before unquoting. *)
Definition parse_field (name_value : string) : option (string * string) :=
  match split_once "=" name_value with
  | Some (n, v) =>
      if is_empty v then None
      else Some (unquote (replace "+" " " n), unquote (replace "+" " " v))
  | None => None
  end.

Definition parse_qsl (qs : string) : list (string * string) :=
  omap parse_field (split "&" qs).

(** One step of the loop of [parse_qs]: append to the list of an existing
    name, or start a new list. *)
Definition add_pair (parsed : gmap string (list string))
    (nv : string * string) : gmap string (list string) :=
  match parsed !! nv.1 with
  | Some vs => <[nv.1 := vs ++ [nv.2]]> parsed
  | None => <[nv.1 := [nv.2]]> parsed
  end.

Definition parse_qs (qs : string) : gmap string (list string) :=
  foldl add_pair ∅ (parse_qsl qs).

End QueryString.

(** ** The URL interpreter of [wordcamp_favorites.py] *)
Import UrlLib QueryString.

(** [query_params.get('fav-sessions', [])]. *)
Definition fav_sessions (schedule_url : string) : list string :=
  default [] (parse_qs (query (urlparse schedule_url)) !! "fav-sessions"%string).

Definition extract_favorite_ids (schedule_url : string) : list string :=
  match fav_sessions schedule_url with
  | [] => []
  | first :: _ => map PyStr.strip (PyStr.split "," first)
  end.

Definition get_wordcamp_base_url (schedule_url : string) : string :=
  let parsed_url := urlparse schedule_url in
  scheme parsed_url +:+ "://" +:+ netloc parsed_url
    +:+ PyStr.rstrip "/schedule/" (path parsed_url).

(** ** Decoded JSON values, and Python values in general *)

(** What [response.json()] returns.  The fields of an object are kept in
    insertion order; a lookup takes the first binding of the key. *)
#[warnings="-register-all"]
Inductive json : Type :=
| JNull
| JBool (b : bool)
| JInt (z : Z)
| JStr (s : string)
| JArr (items : list json)
| JObj (fields : list (string * json)).

Inductive exn : Type := AttributeError | TypeError | KeyError.

Inductive result (A : Type) : Type :=
| Ok (a : A)
| Raise (e : exn).
Arguments Ok {A} a.
Arguments Raise {A} e.

(** Sequencing: an exception raised by the first computation propagates. *)
#[export] Instance result_bind : MBind result := fun A B k r =>
  match r with
  | Ok a => k a
  | Raise e => Raise e
  end.
#[export] Instance result_ret : MRet result := fun A a => Ok a.
#[export] Instance result_fmap : FMap result := fun A B f r =>
  match r with
  | Ok a => Ok (f a)
  | Raise e => Raise e
  end.

Fixpoint dict_get (key : string) (d : list (string * json)) : option json :=
  match d with
  | [] => None
  | (k, v) :: rest => if String.eqb k key then Some v else dict_get key rest
  end.

(** Truth value of a Python object. *)
Definition truthy (v : json) : bool :=
  match v with
  | JNull => false
  | JBool b => b
  | JInt z => negb (z =? 0)%Z
  | JStr s => negb (PyStr.is_empty s)
  | JArr l => match l with [] => false | _ => true end
  | JObj d => match d with [] => false | _ => true end
  end.

(** [obj.get(key, dflt)]: only a dict has the method. *)
Definition py_get (key : string) (dflt : json) (obj : json) : result json :=
  match obj with
  | JObj d => Ok (default dflt (dict_get key d))
  | _ => Raise AttributeError
  end.

Definition is_str (s : string) (v : json) : bool :=
  match v with
  | JStr t => String.eqb t s
  | _ => false
  end.

(** [key in container] for a string [key]: key test on a dict, element
    test on a list, substring test on a string. *)
Definition py_in (key : string) (container : json) : result bool :=
  match container with
  | JObj d => Ok (bool_decide (is_Some (dict_get key d)))
  | JArr l => Ok (existsb (is_str key) l)
  | JStr s => Ok (PyStr.contains key s)
  | _ => Raise TypeError
  end.

(** [container[key]] for a string [key]. *)
Definition py_getitem (container : json) (key : string) : result json :=
  match container with
  | JObj d =>
      match dict_get key d with
      | Some v => Ok v
      | None => Raise KeyError
      end
  | _ => Raise TypeError
  end.

(** ** [re.findall(r'Speaker[s]?:\s*([^<\n]+)', content, re.IGNORECASE)] *)
Module Re.
Import PyStr.

Definition name_char (c : ascii) : bool :=
  negb (in_chars c (String "<" (String "010" EmptyString))).

(** The longest prefix matching [[^<\n]*], with its length. *)
Fixpoint span_names (s : string) : string * nat :=
  match s with
  | EmptyString => (EmptyString, 0)
  | String c rest =>
      if name_char c then
        let '(g, n) := span_names rest in (String c g, S n)
      else (EmptyString, 0)
  end.

(** [\s*([^<\n]+)] at the head of [s]: the group and the number of
    characters consumed.  Greedy white space first; when nothing can
    follow it, the white space gives characters back. *)
Fixpoint after_colon (s : string) : option (string * nat) :=
  match s with
  | EmptyString => None
  | String c rest =>
      let here := if name_char c then Some (span_names s) else None in
      if isspace c then
        match after_colon rest with
        | Some (g, n) => Some (g, S n)
        | None => here
        end
      else here
  end.

Fixpoint prefix_ci (p s : string) : bool :=
  match p, s with
  | EmptyString, _ => true
  | String a p', String b s' =>
      Ascii.eqb (lower_char a) (lower_char b) && prefix_ci p' s'
  | String _ _, EmptyString => false
  end.

(** A match of the whole pattern at the head of [s]. *)
Definition match_at (s : string) : option (string * nat) :=
  if prefix_ci "speaker" s then
    match drop 7 s with
    | String c r1 =>
        if Ascii.eqb (lower_char c) "s" then
          match r1 with
          | String ":" r2 =>
              match after_colon r2 with
              | Some (g, n) => Some (g, 9 + n)
              | None => None
              end
          | _ => None
          end
        else if Ascii.eqb c ":" then
          match after_colon r1 with
          | Some (g, n) => Some (g, 8 + n)
          | None => None
          end
        else None
    | EmptyString => None
    end
  else None.

(** Left-to-right scan for non-overlapping matches; [skip] counts the
    characters still covered by the previous match. *)
Fixpoint scan (skip : nat) (s : string) : list string :=
  match s with
  | EmptyString => []
  | String _ rest =>
      match skip with
      | S k => scan k rest
      | O =>
          match match_at s with
          | Some (g, n) => g :: scan (Nat.pred n) rest
          | None => scan 0 rest
          end
      end
  end.

Definition findall_speakers (content : string) : list string :=
  scan 0 content.

End Re.

(** ** The session normaliser *)

(** The dict built for each session.  Every key is always set, so the
    record has a field for each; [datetime] is the one key the emitter
    reads with [dict.get], hence optional for the emitter. *)
Module Session.
Record t := mk {
  id : json;
  title : json;
  speakers : list json;
  location : json;
  datetime : option json;
}.
End Session.
Abbreviation session := Session.t.

Definition speaker_fields : list string :=
  ["_wcpt_speaker_id"; "speakers"; "_wcb_session_speakers"]%string.

Definition location_fields : list string :=
  ["_wcpt_track_id"; "track"; "location"; "_wcb_session_track"]%string.

(** [field in meta and meta[field]]: the value when the test holds. *)
Definition probe (meta : json) (field : string) : result (option json) :=
  present ← py_in field meta;
  if (present : bool) then
    v ← py_getitem meta field;
    mret (if truthy v then Some v else None)
  else mret None.

(** [v if isinstance(v, list) else [v]]. *)
Definition as_list (v : json) : list json :=
  match v with
  | JArr l => l
  | _ => [v]
  end.

(** The loop over [speaker_fields]: every field that passes the test
    extends [speakers]. *)
Fixpoint speakers_loop (meta : json) (fields : list string)
    (speakers : list json) : result (list json) :=
  match fields with
  | [] => mret speakers
  | field :: rest =>
      o ← probe meta field;
      speakers_loop meta rest
        (match o with
         | Some v => speakers ++ as_list v
         | None => speakers
         end)
  end.

(** The loop over [location_fields]: the first field that passes the test
    sets [location] and leaves the loop. *)
Fixpoint location_loop (meta : json) (fields : list string)
    (location : json) : result json :=
  match fields with
  | [] => mret location
  | field :: rest =>
      o ← probe meta field;
      match o with
      | Some v => mret v
      | None => location_loop meta rest location
      end
  end.

(** The fallback on the rendered content: the trimmed matches of the
    pattern. *)
Definition speakers_from_content (content_field : json) : result (list json) :=
  content ← py_get "rendered" (JStr EmptyString) content_field;
  match content with
  | JStr text =>
      mret ((fun m => JStr (PyStr.strip m)) <$> Re.findall_speakers text)
  | _ => Raise TypeError
  end.

(** [session.get('title', {}).get('rendered', 'Unknown Title')]. *)
Definition rendered_title (raw : json) : result json :=
  title_field ← py_get "title" (JObj []) raw;
  py_get "rendered" (JStr "Unknown Title") title_field.

(** The speakers found in the metadata, when the record has any. *)
Definition meta_speakers (d : list (string * json)) : result (list json) :=
  match dict_get "meta" d with
  | Some meta => speakers_loop meta speaker_fields []
  | None => mret []
  end.

(** [if not speakers and 'content' in session: ...]. *)
Definition content_fallback (speakers : list json)
    (d : list (string * json)) : result (list json) :=
  match speakers, dict_get "content" d with
  | [], Some content_field =>
      found ← speakers_from_content content_field;
      mret (match found with [] => speakers | _ => found end)
  | _, _ => mret speakers
  end.

(** The location or track, with its placeholder. *)
Definition find_location (d : list (string * json)) : result json :=
  match dict_get "meta" d with
  | Some meta => location_loop meta location_fields (JStr "Unknown Location")
  | None => mret (JStr "Unknown Location")
  end.

(** The body of the loop of [extract_session_info]. *)
Definition extract_one (raw : json) : result session :=
  match raw with
  | JObj d =>
      title ← rendered_title raw;
      speakers ← meta_speakers d;
      speakers ← content_fallback speakers d;
      location ← find_location d;
      let date_time := default (JStr EmptyString) (dict_get "date" d) in
      mret (Session.mk
              (default JNull (dict_get "id" d))
              title
              (match speakers with
               | [] => [JStr "Unknown Speaker"]
               | _ => speakers
               end)
              location
              (Some date_time))
  | _ => Raise AttributeError
  end.

Fixpoint extract_session_info (session_data : list json)
    : result (list session) :=
  match session_data with
  | [] => mret []
  | raw :: rest =>
      s ← extract_one raw;
      sessions ← extract_session_info rest;
      mret (s :: sessions)
  end.

(** ** The session fetcher *)

(** One [requests.get(api_url, params={'include': ...}, timeout=30)]. *)
Record request := mkRequest {
  url : string;
  include : string;
  timeout : Z;
}.

(** What the [try] block sees: [RequestException] stands for every failure
    that the [except] clause catches (transport error, time-out, status
    outside 2xx, undecodable body); [Body] is the decoded JSON. *)
Inductive response : Type :=
| RequestException
| Body (payload : json).

(** [range(start, stop, step)] for a positive [step]. *)
Definition py_range (start stop step : nat) : list nat :=
  (fun k => start + k * step) <$> seq 0 ((stop - start + step - 1) / step).

(** [l[i:j]]. *)
Definition slice {A : Type} (l : list A) (i j : nat) : list A :=
  take (j - i) (drop i l).

Fixpoint chars_of (s : string) : list json :=
  match s with
  | EmptyString => []
  | String c rest => JStr (String c EmptyString) :: chars_of rest
  end.

(** What [all_sessions.extend(sessions)] appends: the items of a list, the
    keys of a dict, the characters of a string; anything else is not
    iterable. *)
Definition iterate (v : json) : result (list json) :=
  match v with
  | JArr l => mret l
  | JObj d => mret ((fun kv => JStr kv.1) <$> d)
  | JStr s => mret (chars_of s)
  | _ => Raise TypeError
  end.

Definition chunk_size : nat := 10.

(** [api_url] in [fetch_session_data]. *)
Definition api_url_of (base_url : string) : string :=
  base_url +:+ "/wp-json/wp/v2/sessions".

(** The successive values of [chunk] in the loop of [fetch_session_data]. *)
Definition chunks (session_ids : list string) : list (list string) :=
  (fun i => slice session_ids i (i + chunk_size))
    <$> py_range 0 (length session_ids) chunk_size.

(** The request the loop builds for one chunk. *)
Definition chunk_request (api_url : string) (chunk : list string) : request :=
  mkRequest api_url (PyStr.join "," chunk) 30.

(** The records a response contributes when it carries a list. *)
Definition records_of (resp : response) : list json :=
  match resp with
  | Body (JArr records) => records
  | _ => []
  end.

Section Fetcher.
(** The remote host: a state and the outcome of one GET in that state. *)
Context {World : Type}.
Variable http_get : World -> request -> response * World.

Record fetched := mkFetched {
  all_sessions : list json;
  exchanges : list (request * response);
  world : World;
}.

(** The body of the loop for the chunk that starts at [i]. *)
Definition fetch_chunk (api_url : string) (session_ids : list string)
    (i : nat) (st : fetched) : result fetched :=
  let chunk := slice session_ids i (i + chunk_size) in
  let req := chunk_request api_url chunk in
  let '(resp, w) := http_get (world st) req in
  let log := exchanges st ++ [(req, resp)] in
  match resp with
  | Body sessions =>
      items ← iterate sessions;
      mret (mkFetched (all_sessions st ++ items) log w)
  | RequestException => mret (mkFetched (all_sessions st) log w)
  end.

Fixpoint fetch_loop (api_url : string) (session_ids : list string)
    (indices : list nat) (st : fetched) : result fetched :=
  match indices with
  | [] => mret st
  | i :: rest =>
      st' ← fetch_chunk api_url session_ids i st;
      fetch_loop api_url session_ids rest st'
  end.

Definition fetch_session_data (base_url : string)
    (session_ids : list string) (w : World) : result fetched :=
  let api_url := api_url_of base_url in
  fetch_loop api_url session_ids
    (py_range 0 (length session_ids) chunk_size)
    (mkFetched [] [] w).

(** The host answers the given requests one after the other. *)
Fixpoint run (w : World) (reqs : list request)
    : list (request * response) * World :=
  match reqs with
  | [] => ([], w)
  | req :: rest =>
      let '(resp, w1) := http_get w req in
      let '(log, w2) := run w1 rest in
      ((req, resp) :: log, w2)
  end.

(** The host of the specification: each request fails or is answered
    with a sequence of records. *)
Definition answers_or_fails : Prop :=
  ∀ w req,
    (http_get w req).1 = RequestException
    ∨ ∃ records, (http_get w req).1 = Body (JArr records).

End Fetcher.

(** A scripted host: the pending outcomes, one per request and in order,
    [None] for a failure and [Some records] for an answer; once the script
    is used up every request fails. *)
Definition scripted (w : list (option (list json))) (_ : request)
    : response * list (option (list json)) :=
  match w with
  | [] => (RequestException, [])
  | None :: rest => (RequestException, rest)
  | Some records :: rest => (Body (JArr records), rest)
  end.

(** ** The calendar emitter *)

Definition newline : string := String "010" EmptyString.

(** The text made of the given lines, each one ended by a line feed. *)
Fixpoint unlines (ls : list string) : string :=
  match ls with
  | [] => EmptyString
  | l :: rest => l +:+ newline +:+ unlines rest
  end.

Definition hex_digit (n : N) : ascii :=
  if (n <? 10)%N then ascii_of_N (48 + n) else ascii_of_N (87 + n).

Definition backslash : ascii := "092".

Definition escape (c : ascii) : string :=
  String backslash (String c EmptyString).

Definition hex_escape (c : ascii) : string :=
  String backslash (String "x" (String (hex_digit (PyStr.code c / 16))
    (String (hex_digit (PyStr.code c mod 16)) EmptyString))).

(** [str.isprintable] on one character. *)
Definition printable (c : ascii) : bool :=
  PyStr.between 32 126 c
  || (PyStr.between 161 255 c && negb (PyStr.code c =? 173)%N).

Definition repr_char (quote c : ascii) : string :=
  if Ascii.eqb c quote || Ascii.eqb c backslash then escape c
  else if Ascii.eqb c "009" then escape "t"
  else if Ascii.eqb c "010" then escape "n"
  else if Ascii.eqb c "013" then escape "r"
  else if printable c then String c EmptyString
  else hex_escape c.

Fixpoint repr_chars (quote : ascii) (s : string) : string :=
  match s with
  | EmptyString => EmptyString
  | String c rest => repr_char quote c +:+ repr_chars quote rest
  end.

(** [repr] of a string: single quotes, unless the text has a single quote
    and no double quote. *)
Definition repr_str (s : string) : string :=
  let quote := if PyStr.in_chars "'" s && negb (PyStr.in_chars "034" s) then "034" else "'" in
  String quote (repr_chars quote s) +:+ String quote EmptyString.

Definition int_str (z : Z) : string := NilZero.string_of_int (Z.to_int z).

Fixpoint py_repr (v : json) : string :=
  match v with
  | JNull => "None"
  | JBool b => if b then "True" else "False"
  | JInt z => int_str z
  | JStr s => repr_str s
  | JArr l => "[" +:+ PyStr.join ", " (map py_repr l) +:+ "]"
  | JObj d =>
      "{" +:+ PyStr.join ", " (map (fun '(k, x) => repr_str k +:+ ": " +:+ py_repr x) d)
          +:+ "}"
  end.

(** [str(v)], which is what an f-string field inserts. *)
Definition py_str (v : json) : string :=
  match v with
  | JStr s => s
  | _ => py_repr v
  end.

(** The opening text: the calendar header, a blank line, the time zone
    block, a blank line. *)
Definition header_lines : list string :=
    [ "BEGIN:VCALENDAR";
      "VERSION:2.0";
      "PRODID:-//WordCamp Favorites//Session Calendar//EN";
      "CALSCALE:GREGORIAN";
      "METHOD:PUBLISH";
      EmptyString;
      "BEGIN:VTIMEZONE";
      "TZID:America/Los_Angeles";
      "BEGIN:DAYLIGHT";
      "TZOFFSETFROM:-0800";
      "TZOFFSETTO:-0700";
      "TZNAME:PDT";
      "DTSTART:20250309T020000";
      "RRULE:FREQ=YEARLY;BYMONTH=3;BYDAY=2SU";
      "END:DAYLIGHT";
      "BEGIN:STANDARD";
      "TZOFFSETFROM:-0700";
      "TZOFFSETTO:-0800";
      "TZNAME:PST";
      "DTSTART:20251102T020000";
      "RRULE:FREQ=YEARLY;BYMONTH=11;BYDAY=1SU";
      "END:STANDARD";
      "END:VTIMEZONE";
      EmptyString ]%string.

Definition ics_header : string := unlines header_lines.

Definition ics_footer : string := "END:VCALENDAR".

(** [', '.join(session['speakers'])]: every item has to be a string. *)
Fixpoint str_items (vs : list json) : result (list string) :=
  match vs with
  | [] => mret []
  | JStr s :: rest => ss ← str_items rest; mret (s :: ss)
  | _ :: _ => Raise TypeError
  end.

Definition speaker_list (s : session) : result string :=
  names ← str_items (Session.speakers s);
  mret (PyStr.join ", " names).

(** [.replace('-', '').replace(':', '').replace('T', 'T')] on a string;
    any other value has no [replace]. *)
Definition compact (v : json) : result string :=
  match v with
  | JStr stamp =>
      mret (PyStr.replace "T" "T"
              (PyStr.replace ":" EmptyString
                 (PyStr.replace "-" EmptyString stamp)))
  | _ => Raise AttributeError
  end.

(** [session.get('datetime', '20250101T120000')] and its twin for the end:
    the literal is used when the key is absent. *)
Definition event_dtstart (s : session) : result string :=
  compact (default (JStr "20250101T120000") (Session.datetime s)).

Definition event_dtend (s : session) : result string :=
  compact (default (JStr "20250101T130000") (Session.datetime s)).

Definition event_uid (s : session) : string :=
  py_str (Session.id s) +:+ "@wordcamp-favorites".

(** The lines of one event entry; a blank line closes it. *)
Definition event_lines (s : session) : result (list string) :=
  speakers ← speaker_list s;
  dtstart ← event_dtstart s;
  dtend ← event_dtend s;
  mret [ "BEGIN:VEVENT";
         "UID:" +:+ event_uid s;
         "DTSTART;TZID=America/Los_Angeles:" +:+ dtstart;
         "DTEND;TZID=America/Los_Angeles:" +:+ dtend;
         "SUMMARY:" +:+ py_str (Session.title s);
         "DESCRIPTION:Speaker(s): " +:+ speakers;
         "LOCATION:" +:+ py_str (Session.location s);
         "END:VEVENT";
         EmptyString ]%string.

Definition event_block (s : session) : result string :=
  ls ← event_lines s;
  mret (unlines ls).

(** The loop [ics_content += ...] over the sessions. *)
Fixpoint render_loop (sessions : list session) (ics_content : string)
    : result string :=
  match sessions with
  | [] => mret ics_content
  | s :: rest =>
      block ← event_block s;
      render_loop rest (ics_content +:+ block)
  end.

(** The text handed to [f.write]. *)
Definition ics_document (sessions : list session) : result string :=
  body ← render_loop sessions ics_header;
  mret (body +:+ ics_footer).

(** The file named [output_file] is replaced by the document. *)
Definition generate_ics_calendar (sessions : list session)
    (output_file : string) (fs : gmap string string)
    : result (gmap string string) :=
  ics_content ← ics_document sessions;
  mret (<[output_file := ics_content]> fs).

(** ** The command line program *)

Definition output_file_name : string := "wordcamp_favorites.ics".

(** The display loop of [main]: [', '.join(session['speakers'])] for each
    session, before the lines are printed. *)
Fixpoint display_loop (sessions : list session) : result unit :=
  match sessions with
  | [] => mret tt
  | s :: rest => _ ← speaker_list s; display_loop rest
  end.

(** How a run of [main] ends: with an exit status ([sys.exit(1)], or 0 when
    [main] returns), after the given exchanges with the host and with the
    given files; or with an exception that nothing catches.  The file is
    written last, so the files of a run that raises are those it started
    with. *)
Inductive outcome : Type :=
| Exited (status : Z) (log : list (request * response))
    (fs : gmap string string)
| Crashed (e : exn) (fs : gmap string string).

Section Main.
Context {World : Type}.
Variable http_get : World -> request -> response * World.

(** [argv] is [sys.argv]: the program name and its arguments. *)
Definition main (argv : list string) (w : World) (fs : gmap string string)
    : outcome :=
  match argv with
  | [_; schedule_url] =>
      match extract_favorite_ids schedule_url with
      | [] => Exited 1 [] fs
      | session_ids =>
          let base_url := get_wordcamp_base_url schedule_url in
          match fetch_session_data http_get base_url session_ids w with
          | Raise e => Crashed e fs
          | Ok got =>
              match all_sessions got with
              | [] => Exited 1 (exchanges got) fs
              | session_data =>
                  match
                    sessions ← extract_session_info session_data;
                    _ ← display_loop sessions;
                    generate_ics_calendar sessions output_file_name fs
                  with
                  | Ok fs' => Exited 0 (exchanges got) fs'
                  | Raise e => Crashed e fs
                  end
              end
          end
      end
  | _ => Exited 1 [] fs
  end.

End Main.

(** ** Auxiliary notions used to state the properties *)

(** What one speaker field of a metadata dict adds to [speakers]. *)
Definition field_speakers (m : list (string * json)) (field : string)
    : list json :=
  match dict_get field m with
  | Some v => if truthy v then as_list v else []
  | None => []
  end.

(** A raw record of the usual shape: an object whose title, if any, is an
    object, whose metadata, if any, is an object or the empty list, and
    whose content, if any, is an object with a textual rendering. *)
Definition well_shaped (raw : json) : bool :=
  match raw with
  | JObj d =>
      match dict_get "title" d with
      | None | Some (JObj _) => true
      | _ => false
      end
      && match dict_get "meta" d with
         | None | Some (JObj _) | Some (JArr []) => true
         | _ => false
         end
      && match dict_get "content" d with
         | None => true
         | Some (JObj c) =>
             match dict_get "rendered" c with
             | None | Some (JStr _) => true
             | _ => false
             end
         | _ => false
         end
  | _ => false
  end.

Definition two_speaker_meta : list (string * json) :=
  [("_wcpt_speaker_id", JArr [JInt 31]); ("speakers", JStr "Ann")]%string.

Definition two_speaker_fields : json :=
  JObj [("id", JInt 7); ("meta", JObj two_speaker_meta)]%string.

Definition empty_title : json :=
  JObj [("id", JInt 9); ("title", JObj [("rendered", JStr EmptyString)])]%string.

(** The lines of a text, as [text.split('\n')] gives them. *)
Definition lines (text : string) : list string := PyStr.split "010" text.

(** How many lines of [text] are exactly [l]. *)
Definition count_lines (l text : string) : nat :=
  length (List.filter (String.eqb l) (lines text)).

Definition one_line (s : string) : bool := negb (PyStr.in_chars "010" s).

Definition is_string (v : json) : bool :=
  match v with
  | JStr _ => true
  | _ => false
  end.

(** A session as the data model has it: the speakers are strings and the
    start time, when set, is a string. *)
Definition typed (s : session) : bool :=
  forallb is_string (Session.speakers s)
  && match Session.datetime s with
     | None | Some (JStr _) => true
     | Some _ => false
     end.

(** No field of the session, as printed, has a line feed in it. *)
Definition plain (s : session) : bool :=
  one_line (py_str (Session.id s))
  && one_line (py_str (Session.title s))
  && one_line (py_str (Session.location s))
  && forallb (fun v => one_line (py_str v)) (Session.speakers s)
  && match Session.datetime s with
     | Some v => one_line (py_str v)
     | None => true
     end.

Definition keynote : session :=
  Session.mk (JInt 12) (JStr "Keynote") [JStr "Ann"; JStr "Bob"]
    (JStr "Hall A") (Some (JStr "2025-08-27T09:00:00")).

Definition workshop : session :=
  Session.mk (JInt 34) (JStr "Workshop") [JStr "Cy"]
    (JStr "Room 2") (Some (JStr "2025-08-27T11:00:00")).

(** A session whose title carries a line feed and the text of a marker. *)
Definition two_line_title : session :=
  Session.mk (JInt 56)
    (JStr ("Lunch" +:+ newline +:+ "BEGIN:VEVENT"))
    [JStr "Dee"] (JStr "Foyer") (Some (JStr "2025-08-27T12:00:00")).

(** A raw record without a date, as the sessions endpoint can return it. *)
Definition undated : json :=
  JObj [("id", JInt 7); ("title", JObj [("rendered", JStr "Keynote")])]%string.

Definition ids_23 : list string :=
  ["1"; "2"; "3"; "4"; "5"; "6"; "7"; "8"; "9"; "10"; "11"; "12"; "13"; "14";
   "15"; "16"; "17"; "18"; "19"; "20"; "21"; "22"; "23"]%string.


(** The value a metadata field offers: present and not empty. *)
Definition field_value (m : list (string * json)) (field : string)
    : option json :=
  match dict_get field m with
  | Some v => if truthy v then Some v else None
  | None => None
  end.

(** The values of the fields called [name], in the order of the query. *)
Definition values_of (name : string) (pairs : list (string * string))
    : list string :=
  omap (fun nv => if decide (nv.1 = name) then Some nv.2 else None) pairs.

(** The text has none of the characters of [chars]. *)
Definition free_of (chars : string) (s : string) : bool :=
  PyStr.forallb (fun c => negb (PyStr.in_chars c chars)) s.


(** A schedule URL in its usual form: scheme, host, path, query. *)
Definition schedule_url (secure : bool) (host path qs : string) : string :=
  (if secure then "https" else "http")
    +:+ "://" +:+ host +:+ path +:+ "?" +:+ qs.

Fixpoint last_char (s : string) : option ascii :=
  match s with
  | EmptyString => None
  | String c rest =>
      match last_char rest with
      | Some d => Some d
      | None => Some c
      end
  end.

(** What [extend] appends for a response: nothing for a failure or a body
    that cannot be iterated. *)
Definition items_of (resp : response) : list json :=
  match resp with
  | Body v =>
      match iterate v with
      | Ok items => items
      | Raise _ => []
      end
  | RequestException => []
  end.

(** The response does not make [extend] raise. *)
Definition harmless (resp : response) : bool :=
  match resp with
  | Body v =>
      match iterate v with
      | Ok _ => true
      | Raise _ => false
      end
  | RequestException => true
  end.

(** A raw record whose speaker metadata holds strings only and whose date,
    if any, is a string. *)
Definition renderable (raw : json) : bool :=
  match raw with
  | JObj d =>
      match dict_get "meta" d with
      | Some (JObj m) =>
          forallb is_string (concat (field_speakers m <$> speaker_fields))
      | _ => true
      end
      && match dict_get "date" d with
         | None | Some (JStr _) => true
         | Some _ => false
         end
  | _ => false
  end.

(** A host that fails every request and one that answers every request
    with the same records. *)
Definition always_fails (w : unit) (_ : request) : response * unit :=
  (RequestException, w).

Definition always_answers (records : list json) (w : unit) (_ : request)
    : response * unit :=
  (Body (JArr records), w).

Definition wp_keynote : json :=
  JObj [("id", JInt 1834);
        ("date", JStr "2025-08-27T09:00:00");
        ("title", JObj [("rendered", JStr "Keynote")]);
        ("content", JObj [("rendered", JStr "<p>Speaker: Ann</p>")]);
        ("meta", JObj [("track", JStr "Hall A")])]%string.

(** * Properties *)

(** ** Facts about the string routines *)
Section StringFacts.

Lemma append_assoc (a b c : string) : (a +:+ b) +:+ c = a +:+ b +:+ c.
Proof. induction a as [|x a IH]; simpl; [done | by f_equal]. Qed.

Lemma append_empty_r (a : string) : a +:+ EmptyString = a.
Proof. induction a as [|x a IH]; simpl; [done | by f_equal]. Qed.

Lemma length_append (a b : string) :
  String.length (a +:+ b) = String.length a + String.length b.
Proof. induction a as [|x a IH]; simpl; [done | by rewrite IH]. Qed.

Lemma append_inv_tail (a b c : string) : a +:+ c = b +:+ c → a = b.
Proof.
  intros H.
  assert (Hl : String.length a = String.length b).
  { apply (f_equal String.length) in H.
    rewrite !length_append in H. lia. }
  revert b H Hl. induction a as [|x a IH]; intros [|y b] H Hl;
    simpl in *; try done.
  injection Hl as Hl. injection H as -> H. f_equal. by apply IH.
Qed.

Lemma split_nonempty sep s : PyStr.split sep s ≠ [].
Proof.
  destruct s as [|c s]; simpl; [done |].
  destruct (Ascii.eqb c sep); [done |].
  by destruct (PyStr.split sep s).
Qed.

(** Splitting distributes over a separator in the middle. *)
Lemma split_app sep a b :
  PyStr.split sep (a +:+ String sep b)
  = PyStr.split sep a ++ PyStr.split sep b.
Proof.
  induction a as [|c a IH]; simpl.
  - by rewrite Ascii.eqb_refl.
  - destruct (Ascii.eqb c sep); [by rewrite IH |].
    rewrite IH. pose proof (split_nonempty sep a) as Hne.
    by destruct (PyStr.split sep a).
Qed.

Lemma length_split sep s :
  length (PyStr.split sep s) = S (PyStr.count sep s).
Proof.
  induction s as [|c s IH]; simpl; [done |].
  destruct (Ascii.eqb c sep); simpl; [by rewrite IH |].
  pose proof (split_nonempty sep s) as Hne.
  destruct (PyStr.split sep s); [done | simpl in *; lia].
Qed.

Lemma strip_empty : PyStr.strip EmptyString = EmptyString.
Proof. reflexivity. Qed.

End StringFacts.

(** ** The URL interpreter *)
Section UrlInterpreter.





Lemma extract_favorite_ids_first url v rest :
  fav_sessions url = v :: rest →
  extract_favorite_ids url = PyStr.strip <$> PyStr.split "," v.
Proof. intros H. unfold extract_favorite_ids. by rewrite H. Qed.

(** C1.  On [https://example.org/seattle/schedule/?fav-sessions=12] the
    path is [/seattle/schedule/] and the base URL comes out as
    [https://example.org/seatt]: after the segment [/schedule/] the
    letters [l] and [e] of [seattle] are removed as well, because
    [rstrip] takes its argument as a set of characters. *)
Theorem base_url_strips_path_letters :
  path (urlparse "https://example.org/seattle/schedule/?fav-sessions=12")
    = "/seattle/schedule/"%string
  ∧ get_wordcamp_base_url
      "https://example.org/seattle/schedule/?fav-sessions=12"
    = "https://example.org/seatt"%string.
Proof. split; vm_compute; reflexivity. Qed.

(** C8.  When the favourites parameter of the URL has the value
    [12, 34 ,56], the identifiers are exactly [12], [34], [56], in that
    order: split on commas, white space trimmed. *)
Theorem favorite_ids_trimmed_in_order url rest :
  fav_sessions url = "12, 34 ,56"%string :: rest →
  extract_favorite_ids url = ["12"; "34"; "56"]%string.
Proof.
  intros H. rewrite (extract_favorite_ids_first _ _ _ H). reflexivity.
Qed.

Lemma favorite_ids_trimmed_in_order_witness :
  fav_sessions "https://us.wordcamp.org/2025/schedule/?fav-sessions=12, 34 ,56"
    = ["12, 34 ,56"%string]
  ∧ extract_favorite_ids
      "https://us.wordcamp.org/2025/schedule/?fav-sessions=12, 34 ,56"
    = ["12"; "34"; "56"]%string.
Proof.
  split; [vm_compute; reflexivity |].
  apply (favorite_ids_trimmed_in_order _ []). vm_compute. reflexivity.
Defined.

(** C9, as stated, fails: a repeated identifier is returned twice. *)
Lemma favorite_ids_repeat :
  ¬ NoDup (extract_favorite_ids
             "https://us.wordcamp.org/2025/schedule/?fav-sessions=12,12").
Proof.
  replace (extract_favorite_ids _) with ["12"; "12"]%string
    by (vm_compute; reflexivity).
  intros H. apply NoDup_cons in H as [Hin _]. apply Hin. by left.
Qed.

(** C9, amended.  The identifiers are the trimmed tokens of the first
    favourites value, one per token and in source order: as many as the
    value has commas plus one, repetitions included. *)
Theorem favorite_ids_one_per_token url v rest :
  fav_sessions url = v :: rest →
  extract_favorite_ids url = PyStr.strip <$> PyStr.split "," v
  ∧ length (extract_favorite_ids url) = S (PyStr.count "," v)
  ∧ ∀ i tok, PyStr.split "," v !! i = Some tok →
             extract_favorite_ids url !! i = Some (PyStr.strip tok).
Proof.
  intros H. rewrite (extract_favorite_ids_first _ _ _ H).
  split; [done |]. split.
  - by rewrite length_fmap, length_split.
  - intros i tok Hi. by rewrite list_lookup_fmap, Hi.
Qed.

Lemma favorite_ids_one_per_token_witness :
  extract_favorite_ids
    "https://us.wordcamp.org/2025/schedule/?fav-sessions=12,12"
    = PyStr.strip <$> PyStr.split "," "12,12"
  ∧ length (extract_favorite_ids
              "https://us.wordcamp.org/2025/schedule/?fav-sessions=12,12")
    = S (PyStr.count "," "12,12")
  ∧ ∀ i tok, PyStr.split "," "12,12" !! i = Some tok →
             extract_favorite_ids
               "https://us.wordcamp.org/2025/schedule/?fav-sessions=12,12"
               !! i = Some (PyStr.strip tok).
Proof.
  apply (favorite_ids_one_per_token _ _ []). vm_compute. reflexivity.
Defined.

End UrlInterpreter.

(** ** The session fetcher *)
Section Chunking.

Lemma slice_chunk {A} (l : list A) i c : slice l i (i + c) = take c (drop i l).
Proof. unfold slice. f_equal. lia. Qed.

Lemma concat_slices {A} c m (l : list A) :
  length l ≤ m * c →
  concat ((fun k => take c (drop (k * c) l)) <$> seq 0 m) = l.
Proof.
  revert l. induction m as [|m IH]; intros l Hl; simpl.
  - destruct l; [done | simpl in Hl; lia].
  - rewrite <- fmap_S_seq, <- list_fmap_compose.
    rewrite drop_0. etrans; [| apply (take_drop c l)]. f_equal.
    etrans; [| apply (IH (drop c l)); rewrite length_drop; lia].
    f_equal. apply list_fmap_ext. intros _ k _. simpl.
    rewrite drop_drop. do 2 f_equal; lia.
Qed.

Lemma range_count n : n ≤ (n + chunk_size - 1) / chunk_size * chunk_size.
Proof.
  unfold chunk_size.
  pose proof (Nat.div_mod_eq (n + 10 - 1) 10).
  pose proof (Nat.mod_upper_bound (n + 10 - 1) 10). lia.
Qed.

Lemma range_bound n k :
  k < (n + chunk_size - 1) / chunk_size → k * chunk_size < n.
Proof.
  unfold chunk_size. intros Hk.
  pose proof (Nat.div_mod_eq (n + 10 - 1) 10).
  pose proof (Nat.mod_upper_bound (n + 10 - 1) 10). lia.
Qed.

Lemma chunks_eq ids :
  chunks ids
  = (fun k => take chunk_size (drop (k * chunk_size) ids))
      <$> seq 0 ((length ids + chunk_size - 1) / chunk_size).
Proof.
  unfold chunks, py_range. rewrite <- list_fmap_compose.
  rewrite Nat.sub_0_r. apply list_fmap_ext. intros _ k _. simpl.
  apply slice_chunk.
Qed.

(** The chunks, put end to end, are the identifier list. *)
Lemma concat_chunks ids : concat (chunks ids) = ids.
Proof. rewrite chunks_eq. apply concat_slices, range_count. Qed.

Lemma length_chunks ids :
  length (chunks ids) = (length ids + chunk_size - 1) / chunk_size.
Proof. by rewrite chunks_eq, length_fmap, length_seq. Qed.

(** Chunk [k] is the slice that starts at [10 * k]; it is not empty, has
    at most ten identifiers, and exactly ten unless it is the last. *)
Lemma chunk_lookup ids k chunk :
  chunks ids !! k = Some chunk →
  chunk = take 10 (drop (10 * k) ids)
  ∧ 0 < length chunk ≤ 10
  ∧ (S k < length (chunks ids) → length chunk = 10).
Proof.
  rewrite length_chunks, chunks_eq, list_lookup_fmap.
  intros H. apply fmap_Some in H as (k' & Hk & ->).
  apply lookup_seq in Hk as [-> Hk]. simpl in *.
  pose proof (range_bound _ _ Hk) as Hlt.
  replace (k * chunk_size) with (10 * k) in * by (unfold chunk_size; lia).
  unfold chunk_size in *. split; [done |].
  rewrite length_take, length_drop. split; [lia |].
  intros Hk'. apply range_bound in Hk'. unfold chunk_size in Hk'. lia.
Qed.

Lemma elem_of_chunks (x : string) ids :
  x ∈ ids → ∃ chunk, chunk ∈ chunks ids ∧ x ∈ chunk.
Proof.
  intros Hx. rewrite <- (concat_chunks ids) in Hx.
  apply list_elem_of_In, in_concat in Hx as (chunk & Hc & Hx).
  exists chunk. by rewrite !list_elem_of_In.
Qed.

End Chunking.

Section FetcherFacts.
Context {World : Type} (http_get : World → request → response * World).
Hypothesis host : answers_or_fails http_get.

Lemma fetch_chunk_run api ids i st :
  let req := chunk_request api (slice ids i (i + chunk_size)) in
  let out := http_get (world st) req in
  fetch_chunk http_get api ids i st
  = Ok (mkFetched (all_sessions st ++ records_of out.1)
                  (exchanges st ++ [(req, out.1)]) out.2).
Proof.
  intros req out. unfold fetch_chunk. fold req. fold out.
  destruct (host (world st) req) as [E | [records E]]; fold out in E;
    destruct out as [resp w1]; simpl in E; subst resp; simpl.
  - by rewrite app_nil_r.
  - done.
Qed.

(** The loop never raises: it performs the run of the host on the chunk
    requests and accumulates the records of the answered ones. *)
Lemma fetch_loop_run api ids indices st :
  let reqs :=
    (fun i => chunk_request api (slice ids i (i + chunk_size))) <$> indices in
  let out := run http_get (world st) reqs in
  fetch_loop http_get api ids indices st
  = Ok (mkFetched (all_sessions st ++ concat (records_of <$> out.1.*2))
                  (exchanges st ++ out.1) out.2).
Proof.
  revert st. induction indices as [|i rest IH]; intros st; simpl.
  - rewrite !app_nil_r. by destruct st.
  - rewrite fetch_chunk_run. simpl. rewrite IH. simpl.
    destruct (http_get (world st) _) as [resp w1]; simpl.
    destruct (run http_get w1 _) as [log w2]; simpl.
    by rewrite <- !app_assoc.
Qed.

Lemma fetch_session_data_run base ids w :
  let api := api_url_of base in
  let out := run http_get w (chunk_request api <$> chunks ids) in
  fetch_session_data http_get base ids w
  = Ok (mkFetched (concat (records_of <$> out.1.*2)) out.1 out.2).
Proof.
  intros api out. unfold fetch_session_data. rewrite fetch_loop_run. simpl.
  unfold out, chunks.
  rewrite <- (list_fmap_compose (fun i => slice ids i (i + chunk_size))
                (chunk_request api)).
  reflexivity.
Qed.

Lemma run_requests w reqs : (run http_get w reqs).1.*1 = reqs.
Proof.
  revert w. induction reqs as [|req reqs IH]; intros w; simpl; [done |].
  destruct (http_get w req) as [resp w1].
  specialize (IH w1). destruct (run http_get w1 reqs) as [log w2].
  simpl in *. by f_equal.
Qed.

End FetcherFacts.

Section FetcherClaims.
Context {World : Type} (http_get : World → request → response * World).

(** C6.  With a host that answers or fails, 23 identifiers are fetched
    with exactly three requests, one per chunk and in order; the chunks
    have 10, 10 and 3 identifiers and, put end to end, give back the
    identifier list, so every position of the list lies in exactly one
    chunk.  For every list, chunk [k] is the slice of at most ten
    identifiers that starts at position [10 * k], and only the last chunk
    can be shorter than ten. *)
Theorem fetch_23_in_three_batches base ids w :
  answers_or_fails http_get →
  length ids = 23 →
  ∃ r, fetch_session_data http_get base ids w = Ok r
    ∧ (exchanges r).*1 = chunk_request (api_url_of base) <$> chunks ids
    ∧ length (exchanges r) = 3
    ∧ length <$> chunks ids = [10; 10; 3]
    ∧ concat (chunks ids) = ids
    ∧ ∀ l : list string,
        concat (chunks l) = l
        ∧ ∀ k chunk, chunks l !! k = Some chunk →
            chunk = take 10 (drop (10 * k) l)
            ∧ 0 < length chunk ≤ 10
            ∧ (S k < length (chunks l) → length chunk = 10).
Proof.
  intros host Hlen. eexists. split; [by apply fetch_session_data_run |].
  simpl. rewrite run_requests.
  assert (Hsizes : length <$> chunks ids = [10; 10; 3]).
  { unfold chunks, py_range, slice. rewrite Hlen. simpl.
    rewrite !length_take, !length_drop, Hlen. reflexivity. }
  split; [done |]. split.
  - rewrite <- (length_fmap fst), run_requests, length_fmap.
    rewrite <- (length_fmap length), Hsizes. reflexivity.
  - split; [done |]. split; [apply concat_chunks |].
    intros l. split; [apply concat_chunks | apply chunk_lookup].
Qed.

(** C7.  With a host that answers or fails, the fetch always returns: it
    performs the run of the host on the chunk requests, and its result is
    the concatenation, in order, of the records of the answered batches;
    a failed batch contributes nothing, and when every batch fails the
    result is empty. *)
Theorem fetch_skips_failed_batches base ids w :
  answers_or_fails http_get →
  ∃ r, fetch_session_data http_get base ids w = Ok r
    ∧ (exchanges r, world r)
      = run http_get w (chunk_request (api_url_of base) <$> chunks ids)
    ∧ all_sessions r = concat (records_of <$> (exchanges r).*2)
    ∧ records_of RequestException = []
    ∧ ((∀ resp, resp ∈ (exchanges r).*2 → resp = RequestException) →
       all_sessions r = []).
Proof.
  intros host. eexists. split; [by apply fetch_session_data_run |].
  simpl. split; [by destruct (run _ _ _) |]. split; [done |].
  split; [done |]. intros Hfail.
  apply concat_nil_Forall, Forall_fmap, Forall_forall.
  intros resp Hin. by rewrite (Hfail resp Hin).
Qed.

End FetcherClaims.

Lemma scripted_answers_or_fails : answers_or_fails scripted.
Proof. intros [|[records|] w] req; simpl; eauto. Qed.

Lemma fetch_23_in_three_batches_witness :
  ∃ r, fetch_session_data scripted "https://us.wordcamp.org/2025" ids_23
         [Some [JObj [("id"%string, JInt 1)]]; None; Some []] = Ok r
    ∧ (exchanges r).*1
      = chunk_request (api_url_of "https://us.wordcamp.org/2025")
          <$> chunks ids_23
    ∧ length (exchanges r) = 3
    ∧ length <$> chunks ids_23 = [10; 10; 3]
    ∧ concat (chunks ids_23) = ids_23
    ∧ ∀ l : list string,
        concat (chunks l) = l
        ∧ ∀ k chunk, chunks l !! k = Some chunk →
            chunk = take 10 (drop (10 * k) l)
            ∧ 0 < length chunk ≤ 10
            ∧ (S k < length (chunks l) → length chunk = 10).
Proof.
  apply (fetch_23_in_three_batches scripted);
    [exact scripted_answers_or_fails | reflexivity].
Defined.

Lemma fetch_skips_failed_batches_witness :
  ∃ r, fetch_session_data scripted "https://us.wordcamp.org/2025" ids_23
         [Some [JObj [("id"%string, JInt 1)]]; None; Some []] = Ok r
    ∧ (exchanges r, world r)
      = run scripted [Some [JObj [("id"%string, JInt 1)]]; None; Some []]
          (chunk_request (api_url_of "https://us.wordcamp.org/2025")
             <$> chunks ids_23)
    ∧ all_sessions r = concat (records_of <$> (exchanges r).*2)
    ∧ records_of RequestException = []
    ∧ ((∀ resp, resp ∈ (exchanges r).*2 → resp = RequestException) →
       all_sessions r = []).
Proof.
  apply (fetch_skips_failed_batches scripted), scripted_answers_or_fails.
Defined.

(** A run where the middle batch fails: the records of the first and of
    the third batch are returned, those of the second are missing. *)
Example fetch_partial_result :
  all_sessions
    <$> fetch_session_data scripted "https://us.wordcamp.org/2025" ids_23
          [Some [JObj [("id"%string, JInt 1)]]; None;
           Some [JObj [("id"%string, JInt 21)]]]
  = Ok [JObj [("id"%string, JInt 1)]; JObj [("id"%string, JInt 21)]].
Proof. vm_compute. reflexivity. Qed.

(** A body that is not iterable is not a batch failure: the [TypeError] of
    [extend] is not caught and ends the fetch. *)
Example fetch_scalar_body_raises :
  fetch_session_data (fun (w : unit) _ => (Body (JInt 404), w))
    "https://us.wordcamp.org/2025" ["12"%string] tt
  = Raise TypeError.
Proof. reflexivity. Qed.

(** ** Empty tokens *)
Section EmptyTokens.

Lemma split_double_sep sep a b :
  PyStr.split sep (a +:+ String sep (String sep b))
  = PyStr.split sep a ++ EmptyString :: PyStr.split sep b.
Proof. rewrite split_app. simpl. by rewrite Ascii.eqb_refl. Qed.

Lemma split_trailing_sep sep a :
  PyStr.split sep (a +:+ String sep EmptyString)
  = PyStr.split sep a ++ [EmptyString].
Proof. by rewrite split_app. Qed.

(** C10.  When the first favourites value has an empty token, between
    two commas or after a trailing comma, the identifier list has the
    empty string at that place, between the trimmed tokens of what comes
    before and after; and a fetch from a host that answers or fails
    issues a request whose include filter is the comma-joined chunk that
    holds the empty identifier. *)
Theorem empty_tokens_are_kept url v rest :
  fav_sessions url = v :: rest →
  (∀ a b, v = a +:+ ",," +:+ b →
     extract_favorite_ids url
     = (PyStr.strip <$> PyStr.split "," a)
         ++ EmptyString :: (PyStr.strip <$> PyStr.split "," b))
  ∧ (∀ a, v = a +:+ "," →
       extract_favorite_ids url
       = (PyStr.strip <$> PyStr.split "," a) ++ [EmptyString])
  ∧ (EmptyString ∈ extract_favorite_ids url →
     ∀ World (http_get : World → request → response * World) base w,
       answers_or_fails http_get →
       ∃ r chunk,
         fetch_session_data http_get base (extract_favorite_ids url) w = Ok r
         ∧ EmptyString ∈ chunk
         ∧ chunk_request (api_url_of base) chunk ∈ (exchanges r).*1
         ∧ include (chunk_request (api_url_of base) chunk)
           = PyStr.join "," chunk).
Proof.
  intros H. rewrite (extract_favorite_ids_first _ _ _ H).
  split; [| split].
  - intros a b ->. change (",," +:+ b) with (String "," (String "," b)).
    by rewrite split_double_sep, fmap_app.
  - intros a ->. by rewrite split_trailing_sep, fmap_app.
  - intros Hin World http_get base w host.
    destruct (elem_of_chunks _ _ Hin) as (chunk & Hchunk & Hempty).
    eexists. exists chunk.
    split; [by apply fetch_session_data_run |]. simpl.
    rewrite run_requests. split; [done |]. split; [| done].
    by apply list_elem_of_fmap_2.
Qed.

Lemma empty_tokens_are_kept_witness :
  extract_favorite_ids
    "https://us.wordcamp.org/2025/schedule/?fav-sessions=12,,34"
  = ["12"; EmptyString; "34"]%string
  ∧ extract_favorite_ids
      "https://us.wordcamp.org/2025/schedule/?fav-sessions=12,"
    = ["12"; EmptyString]%string
  ∧ ∃ r chunk,
      fetch_session_data scripted "https://us.wordcamp.org/2025"
        (extract_favorite_ids
           "https://us.wordcamp.org/2025/schedule/?fav-sessions=12,,34")
        [Some []] = Ok r
      ∧ EmptyString ∈ chunk
      ∧ chunk_request (api_url_of "https://us.wordcamp.org/2025") chunk
          ∈ (exchanges r).*1
      ∧ include (chunk_request (api_url_of "https://us.wordcamp.org/2025")
                   chunk)
        = PyStr.join "," chunk.
Proof.
  split; [| split].
  - apply (proj1 (empty_tokens_are_kept
                    "https://us.wordcamp.org/2025/schedule/?fav-sessions=12,,34"
                    "12,,34" [] eq_refl) "12" "34" eq_refl)%string.
  - apply (proj1 (proj2 (empty_tokens_are_kept
                    "https://us.wordcamp.org/2025/schedule/?fav-sessions=12,"
                    "12," [] eq_refl)) "12" eq_refl)%string.
  - apply (proj2 (proj2 (empty_tokens_are_kept
                    "https://us.wordcamp.org/2025/schedule/?fav-sessions=12,,34"
                    "12,,34" [] eq_refl))).
    + vm_compute. right. left.
    + exact scripted_answers_or_fails.
Defined.

(** The request issued for [?fav-sessions=12,,34] carries the include
    filter [12,,34]. *)
Example empty_token_in_include :
  (fun r => include <$> (exchanges r).*1)
    <$> fetch_session_data scripted "https://us.wordcamp.org/2025"
          (extract_favorite_ids
             "https://us.wordcamp.org/2025/schedule/?fav-sessions=12,,34")
          [Some []]
  = Ok ["12,,34"%string].
Proof. vm_compute. reflexivity. Qed.

End EmptyTokens.

(** ** The session normaliser *)
Section Normaliser.

Lemma bind_Ok {A B} (r : result A) (k : A → result B) b :
  r ≫= k = Ok b → ∃ a, r = Ok a ∧ k a = Ok b.
Proof. destruct r as [a|e]; simpl; [eauto | done]. Qed.

Lemma bind_Ok_l {A B} (a : A) (k : A → result B) : Ok a ≫= k = k a.
Proof. reflexivity. Qed.

Lemma probe_dict m field :
  probe (JObj m) field
  = Ok (match dict_get field m with
        | Some v => if truthy v then Some v else None
        | None => None
        end).
Proof.
  unfold probe, py_in, py_getitem.
  destruct (dict_get field m) as [v|]; reflexivity.
Qed.

Lemma probe_truthy meta field v :
  probe meta field = Ok (Some v) → truthy v = true.
Proof.
  unfold probe. intros H.
  destruct (py_in field meta) as [[]|]; simpl in H; try done.
  destruct (py_getitem meta field) as [x|]; simpl in H; try done.
  unfold mret, result_ret in H. destruct (truthy x) eqn:E; by simplify_eq.
Qed.

Lemma speakers_loop_dict m fields acc :
  speakers_loop (JObj m) fields acc
  = Ok (acc ++ concat (field_speakers m <$> fields)).
Proof.
  revert acc. induction fields as [|f fields IH]; intros acc; simpl.
  - by rewrite app_nil_r.
  - rewrite probe_dict. simpl. rewrite IH. unfold field_speakers at 2.
    destruct (dict_get f m) as [v|]; [destruct (truthy v) |]; simpl;
      by rewrite <- ?app_assoc.
Qed.

Lemma location_loop_truthy meta fields dflt v :
  truthy dflt = true →
  location_loop meta fields dflt = Ok v → truthy v = true.
Proof.
  intros Hd. induction fields as [|f fields IH]; simpl.
  - by intros [= <-].
  - intros H. apply bind_Ok in H as (o & Hp & H).
    destruct o as [x|]; [| by apply IH].
    injection H as <-. by apply probe_truthy in Hp.
Qed.

Lemma truthy_not_empty_str v : truthy v = true → v ≠ JStr EmptyString.
Proof. by intros H ->. Qed.

Lemma extract_session_info_Forall2 raws sessions :
  extract_session_info raws = Ok sessions
  ↔ Forall2 (fun raw s => extract_one raw = Ok s) raws sessions.
Proof.
  revert sessions. induction raws as [|raw raws IH]; intros sessions; simpl.
  - split; [intros [= <-]; constructor | by intros ->%Forall2_nil_inv_l].
  - split.
    + intros H. apply bind_Ok in H as (s & Hs & H).
      apply bind_Ok in H as (ss & Hss & H). injection H as <-.
      constructor; [done | by apply IH].
    + intros (s & ss & Hs & Hss & ->)%Forall2_cons_inv_l.
      rewrite Hs. simpl. apply IH in Hss. by rewrite Hss.
Qed.

(** The stages of the loop body, read back from a successful run. *)
Lemma extract_one_inv raw s :
  extract_one raw = Ok s →
  ∃ d title speakers0 speakers1 location,
    raw = JObj d
    ∧ rendered_title raw = Ok title
    ∧ meta_speakers d = Ok speakers0
    ∧ content_fallback speakers0 d = Ok speakers1
    ∧ find_location d = Ok location
    ∧ s = Session.mk (default JNull (dict_get "id" d)) title
            (match speakers1 with
             | [] => [JStr "Unknown Speaker"]
             | _ => speakers1
             end)
            location
            (Some (default (JStr EmptyString) (dict_get "date" d))).
Proof.
  destruct raw as [| | | |?|d]; try done. unfold extract_one. intros H.
  apply bind_Ok in H as (title & Ht & H).
  apply bind_Ok in H as (speakers0 & Hs0 & H).
  apply bind_Ok in H as (speakers1 & Hs1 & H).
  apply bind_Ok in H as (location & Hl & H).
  injection H as <-.
  by exists d, title, speakers0, speakers1, location.
Qed.

(** A record with two speaker fields filled in. *)
Lemma two_speaker_fields_run :
  extract_session_info [two_speaker_fields]
  = Ok [Session.mk (JInt 7) (JStr "Unknown Title") [JInt 31; JStr "Ann"]
          (JStr "Unknown Location") (Some (JStr EmptyString))].
Proof. reflexivity. Qed.

(** C2, as stated, fails: with two speaker fields filled in, the speakers
    are not those of the first field alone; the value of the second field
    is among them. *)
Lemma later_speaker_field_contributes :
  ∃ s, extract_session_info [two_speaker_fields] = Ok [s]
    ∧ field_speakers two_speaker_meta "_wcpt_speaker_id" = [JInt 31]
    ∧ field_speakers two_speaker_meta "speakers" = [JStr "Ann"]
    ∧ Session.speakers s ≠ [JInt 31]
    ∧ JStr "Ann" ∈ Session.speakers s.
Proof.
  eexists. split; [apply two_speaker_fields_run |]. simpl.
  repeat split; [done |]. right. left.
Qed.

(** C2, amended.  For every raw record whose metadata is a mapping, the
    speakers taken from the metadata are the values under all the known
    speaker fields that are present with a non-empty value, concatenated
    in probe order (a list contributes its items, any other value itself);
    when at least one field contributes, this is the speaker sequence of
    the canonical record. *)
Theorem speakers_from_every_field raws sessions i d m s :
  extract_session_info raws = Ok sessions →
  raws !! i = Some (JObj d) →
  sessions !! i = Some s →
  dict_get "meta" d = Some (JObj m) →
  field_speakers m "_wcpt_speaker_id" ++ field_speakers m "speakers"
    ++ field_speakers m "_wcb_session_speakers" ≠ [] →
  Session.speakers s
  = field_speakers m "_wcpt_speaker_id" ++ field_speakers m "speakers"
      ++ field_speakers m "_wcb_session_speakers".
Proof.
  intros Hall Hraw Hs Hmeta Hne.
  apply extract_session_info_Forall2 in Hall.
  pose proof (Forall2_lookup_lr _ _ _ _ _ _ Hall Hraw Hs) as Hone.
  apply extract_one_inv in Hone
    as (d' & t & sp0 & sp1 & loc & [= <-] & _ & H0 & H1 & _ & ->).
  unfold meta_speakers in H0.
  rewrite Hmeta, speakers_loop_dict in H0. simpl in H0.
  rewrite app_nil_r in H0. injection H0 as <-. simpl.
  unfold content_fallback in H1.
  destruct (field_speakers m "_wcpt_speaker_id" ++ _) eqn:E; [done |].
  by injection H1 as <-.
Qed.

Lemma speakers_from_every_field_witness :
  Session.speakers
    (Session.mk (JInt 7) (JStr "Unknown Title") [JInt 31; JStr "Ann"]
       (JStr "Unknown Location") (Some (JStr EmptyString)))
  = field_speakers two_speaker_meta "_wcpt_speaker_id"
    ++ field_speakers two_speaker_meta "speakers"
    ++ field_speakers two_speaker_meta "_wcb_session_speakers".
Proof.
  apply (speakers_from_every_field [two_speaker_fields] _ 0
           [("id", JInt 7); ("meta", JObj two_speaker_meta)]%string
           two_speaker_meta _ two_speaker_fields_run);
    [reflexivity | reflexivity | reflexivity | vm_compute; discriminate].
Defined.

Lemma empty_title_run :
  extract_session_info [empty_title]
  = Ok [Session.mk (JInt 9) (JStr EmptyString) [JStr "Unknown Speaker"]
          (JStr "Unknown Location") (Some (JStr EmptyString))].
Proof. reflexivity. Qed.

(** C4, as stated, fails: a rendered title that is present and empty is
    kept, no placeholder takes its place. *)
Lemma title_can_be_empty :
  ∃ s, extract_session_info [empty_title] = Ok [s]
    ∧ Session.title s = JStr EmptyString.
Proof. eexists. split; [apply empty_title_run | done]. Qed.

(** C4, amended.  Whenever normalisation returns, it returns one record
    per raw record, and in every one of them the speaker sequence is not
    empty and the location is not the empty string (nor any other empty
    value); the title is the placeholder when the raw record has no title
    or its title has no rendered field, and is the rendered value as it
    stands otherwise. *)
Theorem canonical_record_invariant raws sessions :
  extract_session_info raws = Ok sessions →
  length sessions = length raws
  ∧ ∀ i s, sessions !! i = Some s →
      Session.speakers s ≠ []
      ∧ Session.location s ≠ JStr EmptyString
      ∧ truthy (Session.location s) = true
      ∧ ∃ d, raws !! i = Some (JObj d)
          ∧ match dict_get "title" d with
            | None => Session.title s = JStr "Unknown Title"
            | Some (JObj t) =>
                Session.title s
                = default (JStr "Unknown Title") (dict_get "rendered" t)
            | Some _ => False
            end.
Proof.
  intros Hall. apply extract_session_info_Forall2 in Hall.
  split; [symmetry; by eapply Forall2_length |].
  intros i s Hs.
  destruct (Forall2_lookup_r _ _ _ _ _ Hall Hs) as (raw & Hraw & Hone).
  apply extract_one_inv in Hone
    as (d & t & sp0 & sp1 & loc & -> & Ht & _ & _ & Hloc & ->).
  simpl. split; [by destruct sp1 |].
  assert (Htruthy : truthy loc = true).
  { unfold find_location in Hloc. destruct (dict_get "meta" d) as [meta|].
    - by eapply location_loop_truthy, Hloc.
    - by injection Hloc as <-. }
  split; [by apply truthy_not_empty_str |]. split; [done |].
  exists d. split; [done |]. unfold rendered_title in Ht. simpl in Ht.
  destruct (dict_get "title" d) as [[| | | | |fields]|]; simpl in Ht;
    try done; by injection Ht as <-.
Qed.

Lemma canonical_record_invariant_witness :
  length [Session.mk (JInt 9) (JStr EmptyString) [JStr "Unknown Speaker"]
            (JStr "Unknown Location") (Some (JStr EmptyString))]
  = length [empty_title]
  ∧ ∀ i s,
      [Session.mk (JInt 9) (JStr EmptyString) [JStr "Unknown Speaker"]
         (JStr "Unknown Location") (Some (JStr EmptyString))] !! i = Some s →
      Session.speakers s ≠ []
      ∧ Session.location s ≠ JStr EmptyString
      ∧ truthy (Session.location s) = true
      ∧ ∃ d, [empty_title] !! i = Some (JObj d)
          ∧ match dict_get "title" d with
            | None => Session.title s = JStr "Unknown Title"
            | Some (JObj t) =>
                Session.title s
                = default (JStr "Unknown Title") (dict_get "rendered" t)
            | Some _ => False
            end.
Proof. apply (canonical_record_invariant [empty_title]), empty_title_run. Defined.

Lemma location_loop_dict m fields dflt :
  ∃ v, location_loop (JObj m) fields dflt = Ok v.
Proof.
  induction fields as [|f fields IH]; simpl; [by eexists |].
  rewrite probe_dict. simpl.
  destruct (dict_get f m) as [v|]; [destruct (truthy v) |]; eauto.
Qed.

(** Normalisation returns on every sequence of records of the usual
    shape. *)
Lemma extract_one_total raw :
  well_shaped raw = true → ∃ s, extract_one raw = Ok s.
Proof.
  destruct raw as [| | | | |d]; try done. unfold well_shaped, extract_one.
  intros [[Ht Hm]%andb_prop Hc]%andb_prop.
  assert (∃ t, rendered_title (JObj d) = Ok t) as [t ->].
  { unfold rendered_title. simpl.
    destruct (dict_get "title" d) as [[| | | | |?]|]; try done; by eexists. }
  rewrite bind_Ok_l.
  assert (∃ sp, meta_speakers d = Ok sp) as [sp0 ->].
  { unfold meta_speakers.
    destruct (dict_get "meta" d) as [[| | | |[|]|m]|]; try done;
      [by eexists | rewrite speakers_loop_dict | ]; by eexists. }
  rewrite bind_Ok_l.
  assert (∃ sp, content_fallback sp0 d = Ok sp) as [sp1 ->].
  { unfold content_fallback, speakers_from_content.
    destruct sp0; [| by eexists].
    destruct (dict_get "content" d) as [[| | | | |c]|]; try done;
      [| by eexists]. simpl.
    destruct (dict_get "rendered" c) as [[| | |text| |]|]; try done;
      by eexists. }
  rewrite bind_Ok_l.
  assert (∃ loc, find_location d = Ok loc) as [loc ->].
  { unfold find_location.
    destruct (dict_get "meta" d) as [[| | | |[|]|m]|]; try done;
      [by eexists | apply location_loop_dict | by eexists]. }
  by eexists.
Qed.

(** A record with no speaker metadata falls back on its content: one
    speaker entry per occurrence of the pattern, not split on commas. *)
Example speakers_from_content_text :
  Session.speakers
    <$> extract_one
          (JObj [("content",
                  JObj [("rendered", JStr "<p>Speakers: Alice, Bob</p>")])])%string
  = Ok [JStr "Alice, Bob"].
Proof. reflexivity. Qed.

(** A record without title, speakers and location gets the three
    placeholders; the empty list is what the endpoint sends for no
    metadata. *)
Example placeholders_for_bare_record :
  extract_session_info [JObj [("meta"%string, JArr [])]]
  = Ok [Session.mk JNull (JStr "Unknown Title") [JStr "Unknown Speaker"]
          (JStr "Unknown Location") (Some (JStr EmptyString))].
Proof. reflexivity. Qed.

Lemma extract_session_info_total raws :
  Forall (fun raw => well_shaped raw = true) raws →
  ∃ sessions, extract_session_info raws = Ok sessions.
Proof.
  induction 1 as [|raw raws Hraw _ [sessions IH]]; simpl; [by eexists |].
  destruct (extract_one_total raw Hraw) as [s ->]. simpl. rewrite IH.
  by eexists.
Qed.

End Normaliser.

(** ** The calendar emitter: time stamps *)
Section TimeStamps.

Lemma replace_same c s : PyStr.replace c (String c EmptyString) s = s.
Proof.
  induction s as [|x s IH]; simpl; [done |].
  destruct (Ascii.eqb_spec x c) as [->|]; simpl; by rewrite IH.
Qed.

Lemma compact_str stamp :
  compact (JStr stamp)
  = Ok (PyStr.replace ":" EmptyString (PyStr.replace "-" EmptyString stamp)).
Proof. unfold compact. by rewrite replace_same. Qed.

(** When the start time is a string, empty or not, the start and the end
    stamp are the same text: the field without its [-] and [:]. *)
Lemma event_stamps_coincide s stamp :
  Session.datetime s = Some (JStr stamp) →
  event_dtstart s
  = Ok (PyStr.replace ":" EmptyString (PyStr.replace "-" EmptyString stamp))
  ∧ event_dtend s = event_dtstart s.
Proof.
  intros H. unfold event_dtstart, event_dtend. rewrite H. simpl.
  by rewrite replace_same.
Qed.

(** The literal defaults are used when the key is absent, and only then. *)
Lemma event_stamps_default s :
  Session.datetime s = None →
  event_dtstart s = Ok "20250101T120000"%string
  ∧ event_dtend s = Ok "20250101T130000"%string.
Proof. intros H. unfold event_dtstart, event_dtend. by rewrite H. Qed.

(** The normaliser always sets the key. *)
Lemma normalised_datetime_set raw s :
  extract_one raw = Ok s →
  ∃ d, raw = JObj d
    ∧ Session.datetime s = Some (default (JStr EmptyString) (dict_get "date" d)).
Proof.
  intros H. apply extract_one_inv in H
    as (d & t & sp0 & sp1 & loc & -> & _ & _ & _ & _ & ->).
  by exists d.
Qed.

(** C3.  A raw record without a date is normalised to a session whose
    start time is the empty string, and the event emitted for it has an
    empty start stamp and an empty end stamp: the literal defaults
    [20250101T120000] and [20250101T130000] are not used. *)
Theorem empty_start_time_emitted_empty :
  ∃ s, extract_session_info [undated] = Ok [s]
    ∧ Session.datetime s = Some (JStr EmptyString)
    ∧ event_dtstart s = Ok EmptyString
    ∧ event_dtend s = Ok EmptyString
    ∧ event_lines s
      = Ok [ "BEGIN:VEVENT";
             "UID:7@wordcamp-favorites";
             "DTSTART;TZID=America/Los_Angeles:";
             "DTEND;TZID=America/Los_Angeles:";
             "SUMMARY:Keynote";
             "DESCRIPTION:Speaker(s): Unknown Speaker";
             "LOCATION:Unknown Location";
             "END:VEVENT";
             EmptyString ]%string.
Proof. eexists. split; [reflexivity |]. repeat split. Qed.

End TimeStamps.

(** ** The calendar emitter: the document *)
Section Calendar.

Lemma split_no_sep sep s :
  PyStr.in_chars sep s = false → PyStr.split sep s = [s].
Proof.
  induction s as [|c s IH]; simpl; [done |].
  rewrite Ascii.eqb_sym. destruct (Ascii.eqb c sep); simpl; [done |].
  intros H. by rewrite IH.
Qed.

Lemma in_chars_append c a b :
  PyStr.in_chars c (a +:+ b) = PyStr.in_chars c a || PyStr.in_chars c b.
Proof.
  induction a as [|x a IH]; simpl; [done |]. by rewrite IH, orb_assoc.
Qed.

Lemma one_line_append a b : one_line (a +:+ b) = one_line a && one_line b.
Proof. unfold one_line. by rewrite in_chars_append, negb_orb. Qed.

Lemma one_line_cons c s :
  one_line (String c s) = negb (Ascii.eqb "010" c) && one_line s.
Proof. unfold one_line. simpl. by rewrite negb_orb. Qed.

Lemma one_line_replace old new s :
  one_line new = true → one_line s = true →
  one_line (PyStr.replace old new s) = true.
Proof.
  intros Hnew. induction s as [|c s IH]; simpl; [done |].
  intros Hs. change (String c s) with (String c EmptyString +:+ s) in Hs.
  rewrite one_line_append in Hs. apply andb_prop in Hs as [Hc Hs].
  destruct (Ascii.eqb c old).
  - rewrite one_line_append, Hnew. by apply IH.
  - change (String c ?t) with (String c EmptyString +:+ t).
    rewrite one_line_append, Hc. by apply IH.
Qed.

Lemma one_line_join sep names :
  one_line sep = true →
  Forall (fun n => one_line n = true) names →
  one_line (PyStr.join sep names) = true.
Proof.
  intros Hsep. induction 1 as [|n names Hn Hnames IH]; [done |].
  destruct names as [|m names]; [done |].
  change (PyStr.join sep (n :: m :: names))
    with (n +:+ sep +:+ PyStr.join sep (m :: names)).
  by rewrite !one_line_append, Hn, Hsep, IH.
Qed.

(** The lines of a text that starts with one-line lines. *)
Lemma lines_unlines ls rest :
  Forall (fun l => one_line l = true) ls →
  lines (unlines ls +:+ rest) = ls ++ lines rest.
Proof.
  induction 1 as [|l ls Hl Hls IH]; simpl; [done |].
  rewrite !append_assoc. unfold newline. simpl.
  unfold lines in *. rewrite split_app, IH.
  rewrite split_no_sep; [done |].
  unfold one_line in Hl. by destruct (PyStr.in_chars _ l).
Qed.

Lemma lines_blocks lss rest :
  Forall (Forall (fun l => one_line l = true)) lss →
  lines (foldr String.append rest (unlines <$> lss))
  = concat lss ++ lines rest.
Proof.
  induction 1 as [|ls lss Hls Hlss IH]; [done |].
  rewrite fmap_cons, concat_cons. cbn [foldr].
  by rewrite lines_unlines, IH, app_assoc.
Qed.

Lemma str_items_typed vs :
  forallb is_string vs = true →
  ∃ names, vs = JStr <$> names ∧ str_items vs = Ok names.
Proof.
  induction vs as [|v vs IH]; simpl; [by exists [] |].
  intros [Hv Hvs]%andb_prop. destruct v; try done.
  destruct (IH Hvs) as (names & -> & ->). by eexists (_ :: names).
Qed.

(** The lines of the entry of a typed session. *)
Lemma event_lines_typed s :
  typed s = true →
  ∃ names dtstart dtend,
    Session.speakers s = JStr <$> names
    ∧ event_dtstart s = Ok dtstart
    ∧ event_dtend s = Ok dtend
    ∧ event_lines s
      = Ok [ "BEGIN:VEVENT";
             "UID:" +:+ event_uid s;
             "DTSTART;TZID=America/Los_Angeles:" +:+ dtstart;
             "DTEND;TZID=America/Los_Angeles:" +:+ dtend;
             "SUMMARY:" +:+ py_str (Session.title s);
             "DESCRIPTION:Speaker(s): " +:+ PyStr.join ", " names;
             "LOCATION:" +:+ py_str (Session.location s);
             "END:VEVENT";
             EmptyString ]%string.
Proof.
  unfold typed. intros [Hsp Hdt]%andb_prop.
  destruct (str_items_typed _ Hsp) as (names & Hnames & Hitems).
  unfold event_lines, speaker_list, event_dtstart, event_dtend.
  rewrite Hitems. exists names.
  destruct (Session.datetime s) as [[| | |stamp| |]|]; try done; simpl;
    do 2 eexists; done.
Qed.

Lemma event_block_typed s :
  typed s = true → ∃ ls, event_lines s = Ok ls ∧ event_block s = Ok (unlines ls).
Proof.
  intros (names & dtstart & dtend & _ & _ & _ & H)%event_lines_typed.
  eexists. split; [done |]. unfold event_block. by rewrite H.
Qed.

(** The loop appends the entries, one after the other. *)
Lemma render_loop_blocks sessions blocks ics_content :
  Forall2 (fun s b => event_block s = Ok b) sessions blocks →
  render_loop sessions ics_content
  = Ok (foldl String.append ics_content blocks).
Proof.
  intros H. revert ics_content.
  induction H as [|s b sessions blocks Hb _ IH]; intros acc; simpl; [done |].
  rewrite Hb. simpl. apply IH.
Qed.

Lemma foldl_foldr_append acc blocks tail :
  foldl String.append acc blocks +:+ tail
  = acc +:+ foldr String.append tail blocks.
Proof.
  revert acc. induction blocks as [|b blocks IH]; intros acc; simpl; [done |].
  by rewrite IH, append_assoc.
Qed.

Lemma ics_document_blocks sessions blocks :
  Forall2 (fun s b => event_block s = Ok b) sessions blocks →
  ics_document sessions
  = Ok (ics_header +:+ foldr String.append ics_footer blocks).
Proof.
  intros H. unfold ics_document. rewrite (render_loop_blocks _ _ _ H).
  simpl. by rewrite foldl_foldr_append.
Qed.

Lemma compact_one_line v t :
  one_line (py_str v) = true → compact v = Ok t → one_line t = true.
Proof.
  destruct v as [| | |stamp| |]; try done. simpl. intros H [= <-].
  by repeat apply one_line_replace.
Qed.

Lemma names_one_line names :
  forallb (fun v => one_line (py_str v)) (JStr <$> names) = true →
  Forall (fun n => one_line n = true) names.
Proof.
  induction names as [|n names IH]; simpl; [constructor |].
  intros [Hn Hnames]%andb_prop. constructor; [done | by apply IH].
Qed.

(** The entry of a plain session: nine one-line lines, of which exactly
    one opens an event and exactly one closes it. *)
Lemma event_lines_plain s ls :
  typed s = true → plain s = true → event_lines s = Ok ls →
  Forall (fun l => one_line l = true) ls
  ∧ length (List.filter (String.eqb "BEGIN:VEVENT") ls) = 1
  ∧ length (List.filter (String.eqb "END:VEVENT") ls) = 1
  ∧ length (List.filter (String.eqb "BEGIN:VTIMEZONE") ls) = 0
  ∧ length (List.filter (String.eqb "END:VTIMEZONE") ls) = 0.
Proof.
  intros Ht Hp Hls.
  destruct (event_lines_typed s Ht)
    as (names & dtstart & dtend & Hnames & Hstart & Hend & Hlines).
  assert (Hls' : Ok ls = Ok _) by (rewrite <- Hls; exact Hlines).
  injection Hls' as ->. clear Hls.
  split; [| repeat split; reflexivity].
  unfold plain in Hp. rewrite Hnames in Hp.
  apply andb_prop in Hp as [[[[Hid Htitle]%andb_prop Hloc]%andb_prop
    Hsp]%andb_prop Hdt].
  assert (Hdefault : ∀ lit t,
    one_line lit = true →
    compact (default (JStr lit) (Session.datetime s)) = Ok t →
    one_line t = true).
  { intros lit t Hlit. destruct (Session.datetime s) as [v|]; simpl.
    - by apply compact_one_line.
    - by apply (compact_one_line (JStr lit)). }
  apply (Hdefault "20250101T120000"%string) in Hstart; [| done].
  apply (Hdefault "20250101T130000"%string) in Hend; [| done].
  pose proof (one_line_join ", " names eq_refl (names_one_line _ Hsp)) as Hj.
  unfold event_uid.
  repeat (apply List.Forall_cons || apply List.Forall_nil);
    rewrite ?one_line_cons, ?one_line_append;
    rewrite ?Hid, ?Htitle, ?Hloc, ?Hstart, ?Hend, ?Hj; reflexivity.
Qed.

Lemma filter_concat_length {A} (f : A → bool) k (lss : list (list A)) :
  Forall (fun ls => length (List.filter f ls) = k) lss →
  length (List.filter f (concat lss)) = k * length lss.
Proof.
  induction 1 as [|ls lss Hls _ IH]; simpl; [lia |].
  rewrite List.filter_app, length_app, Hls, IH. lia.
Qed.

Lemma header_lines_one_line : Forall (fun l => one_line l = true) header_lines.
Proof. repeat constructor. Qed.

(** The marker lines of a document made of one-line entries. *)
Lemma count_lines_document marker (lss : list (list string)) k :
  Forall (Forall (fun l => one_line l = true)) lss →
  Forall (fun ls => length (List.filter (String.eqb marker) ls) = k) lss →
  count_lines marker
    (ics_header +:+ foldr String.append ics_footer (unlines <$> lss))
  = length (List.filter (String.eqb marker) header_lines) + k * length lss
    + count_lines marker ics_footer.
Proof.
  intros Hone Hk. unfold count_lines, ics_header.
  rewrite lines_unlines by apply header_lines_one_line.
  rewrite lines_blocks by done.
  rewrite !List.filter_app, !length_app, (filter_concat_length _ k) by done.
  lia.
Qed.

Lemma header_marker_counts :
  length (List.filter (String.eqb "BEGIN:VEVENT") header_lines) = 0
  ∧ length (List.filter (String.eqb "END:VEVENT") header_lines) = 0
  ∧ length (List.filter (String.eqb "BEGIN:VTIMEZONE") header_lines) = 1
  ∧ length (List.filter (String.eqb "END:VTIMEZONE") header_lines) = 1.
Proof. repeat split; vm_compute; reflexivity. Qed.

Lemma footer_marker_counts :
  count_lines "BEGIN:VEVENT" ics_footer = 0
  ∧ count_lines "END:VEVENT" ics_footer = 0
  ∧ count_lines "BEGIN:VTIMEZONE" ics_footer = 0
  ∧ count_lines "END:VTIMEZONE" ics_footer = 0.
Proof. repeat split; vm_compute; reflexivity. Qed.

Lemma header_time_zone_blocks :
  count_lines "BEGIN:VTIMEZONE" ics_header = 1
  ∧ count_lines "END:VTIMEZONE" ics_header = 1.
Proof. split; vm_compute; reflexivity. Qed.

Lemma int_str_inj z1 z2 : int_str z1 = int_str z2 → z1 = z2.
Proof.
  unfold int_str. intros H.
  assert (Hnn : ∀ z, Z.to_int z ≠ Decimal.Pos Decimal.Nil
                     ∧ Z.to_int z ≠ Decimal.Neg Decimal.Nil).
  { intros [|p|p]; simpl; split; try done; intros [= Hp];
      by apply DecimalPos.Unsigned.to_uint_nonnil in Hp. }
  apply (f_equal NilZero.int_of_string) in H.
  rewrite !NilZero.isi in H by apply Hnn.
  injection H as H. apply (f_equal Z.of_int) in H.
  by rewrite !DecimalZ.of_to in H.
Qed.

Lemma uid_suffix_inj : Inj (=) (=) (fun x => x +:+ "@wordcamp-favorites").
Proof. intros x y. apply append_inv_tail. Qed.

(** The identifiers of the events are as distinct as the printed session
    identifiers. *)
Lemma uids_distinct sessions :
  NoDup (event_uid <$> sessions)
  ↔ NoDup ((fun s => py_str (Session.id s)) <$> sessions).
Proof.
  pose proof uid_suffix_inj as Hinj.
  rewrite <- (NoDup_fmap (fun x => x +:+ "@wordcamp-favorites")
                ((fun s => py_str (Session.id s)) <$> sessions)).
  by rewrite <- list_fmap_compose.
Qed.

Lemma uids_distinct_integers sessions (zs : list Z) :
  Session.id <$> sessions = JInt <$> zs →
  NoDup zs → NoDup (event_uid <$> sessions).
Proof.
  intros Hids Hzs. apply uids_distinct.
  change (fun s => py_str (Session.id s)) with (py_str ∘ Session.id).
  rewrite list_fmap_compose, Hids, <- list_fmap_compose.
  apply NoDup_fmap_2; [| done].
  intros x y. simpl. apply int_str_inj.
Qed.

(** C5, as stated, fails: two records with the same session identifier
    are rendered, and their events carry the same UID. *)
Lemma repeated_session_repeats_uid :
  (∃ doc, ics_document [keynote; keynote] = Ok doc)
  ∧ ¬ NoDup (event_uid <$> [keynote; keynote]).
Proof.
  split; [eexists; vm_compute; reflexivity |].
  intros H. apply NoDup_cons in H as [Hin _]. apply Hin. left.
Qed.

(** C5, amended.  For every sequence of N typed session records the
    emitter returns the header, which holds exactly one time zone block,
    followed by exactly N event entries, one per session and in input
    order, followed by the footer.  The UIDs are pairwise distinct exactly
    when the printed session identifiers are, in particular when the
    identifiers are pairwise distinct integers.  When no field holds a
    line feed, the text has exactly N lines [BEGIN:VEVENT], N lines
    [END:VEVENT] and one line each of [BEGIN:VTIMEZONE] and
    [END:VTIMEZONE]. *)
Theorem calendar_one_event_per_session sessions :
  Forall (fun s => typed s = true) sessions →
  ∃ blocks doc,
    Forall2 (fun s b => event_block s = Ok b) sessions blocks
    ∧ length blocks = length sessions
    ∧ ics_document sessions = Ok doc
    ∧ doc = ics_header +:+ foldr String.append ics_footer blocks
    ∧ count_lines "BEGIN:VTIMEZONE" ics_header = 1
    ∧ count_lines "END:VTIMEZONE" ics_header = 1
    ∧ (NoDup (event_uid <$> sessions)
       ↔ NoDup ((fun s => py_str (Session.id s)) <$> sessions))
    ∧ (∀ zs : list Z, Session.id <$> sessions = JInt <$> zs →
         NoDup zs → NoDup (event_uid <$> sessions))
    ∧ (Forall (fun s => plain s = true) sessions →
       count_lines "BEGIN:VEVENT" doc = length sessions
       ∧ count_lines "END:VEVENT" doc = length sessions
       ∧ count_lines "BEGIN:VTIMEZONE" doc = 1
       ∧ count_lines "END:VTIMEZONE" doc = 1).
Proof.
  intros Htyped.
  assert (∃ lss, Forall2 (fun s ls => event_lines s = Ok ls) sessions lss)
    as [lss Hlss].
  { induction Htyped as [|s sessions Hs _ [lss IH]]; [by exists [] |].
    destruct (event_block_typed s Hs) as (ls & Hls & _).
    exists (ls :: lss). by constructor. }
  assert (Hblocks :
    Forall2 (fun s b => event_block s = Ok b) sessions (unlines <$> lss)).
  { apply Forall2_fmap_r. eapply Forall2_impl; [exact Hlss |].
    intros s ls Hls. unfold event_block. by rewrite Hls. }
  exists (unlines <$> lss). eexists.
  split; [done |].
  split; [symmetry; by eapply Forall2_length |].
  split; [by apply ics_document_blocks |].
  split; [reflexivity |].
  split; [apply header_time_zone_blocks |].
  split; [apply header_time_zone_blocks |].
  split; [apply uids_distinct |].
  split; [apply uids_distinct_integers |].
  intros Hplain.
  assert (Hfacts : Forall (fun ls =>
      Forall (fun l => one_line l = true) ls
      ∧ length (List.filter (String.eqb "BEGIN:VEVENT") ls) = 1
      ∧ length (List.filter (String.eqb "END:VEVENT") ls) = 1
      ∧ length (List.filter (String.eqb "BEGIN:VTIMEZONE") ls) = 0
      ∧ length (List.filter (String.eqb "END:VTIMEZONE") ls) = 0) lss).
  { clear Hblocks. induction Hlss as [|s ls sessions lss Hls _ IH];
      [constructor |].
    apply Forall_cons in Htyped as [Hs Htyped].
    apply Forall_cons in Hplain as [Hp Hplain].
    constructor; [by eapply event_lines_plain | by apply IH]. }
  assert (Hlen : length lss = length sessions)
    by (symmetry; by eapply Forall2_length).
  assert (Hone : Forall (Forall (fun l => one_line l = true)) lss)
    by (eapply Forall_impl; [exact Hfacts | by intros ls [? _]]).
  rewrite <- Hlen.
  destruct header_marker_counts as (Hh1 & Hh2 & Hh3 & Hh4).
  destruct footer_marker_counts as (Hf1 & Hf2 & Hf3 & Hf4).
  split; [| split; [| split]].
  - rewrite (count_lines_document _ lss 1), Hh1, Hf1; [lia | done |].
    eapply Forall_impl; [exact Hfacts | by intros ls (_ & ? & _)].
  - rewrite (count_lines_document _ lss 1), Hh2, Hf2; [lia | done |].
    eapply Forall_impl; [exact Hfacts | by intros ls (_ & _ & ? & _)].
  - rewrite (count_lines_document _ lss 0), Hh3, Hf3; [lia | done |].
    eapply Forall_impl; [exact Hfacts | by intros ls (_ & _ & _ & ? & _)].
  - rewrite (count_lines_document _ lss 0), Hh4, Hf4; [lia | done |].
    eapply Forall_impl; [exact Hfacts | by intros ls (_ & _ & _ & _ & ?)].
Qed.

Lemma calendar_one_event_per_session_witness :
  let sessions := [keynote; workshop] in
  Forall (fun s => typed s = true) sessions
  ∧ ∃ blocks doc,
      Forall2 (fun s b => event_block s = Ok b) sessions blocks
      ∧ length blocks = length sessions
      ∧ ics_document sessions = Ok doc
      ∧ doc = ics_header +:+ foldr String.append ics_footer blocks
      ∧ count_lines "BEGIN:VTIMEZONE" ics_header = 1
      ∧ count_lines "END:VTIMEZONE" ics_header = 1
      ∧ (NoDup (event_uid <$> sessions)
         ↔ NoDup ((fun s => py_str (Session.id s)) <$> sessions))
      ∧ (∀ zs : list Z, Session.id <$> sessions = JInt <$> zs →
           NoDup zs → NoDup (event_uid <$> sessions))
      ∧ (Forall (fun s => plain s = true) sessions →
         count_lines "BEGIN:VEVENT" doc = length sessions
         ∧ count_lines "END:VEVENT" doc = length sessions
         ∧ count_lines "BEGIN:VTIMEZONE" doc = 1
         ∧ count_lines "END:VTIMEZONE" doc = 1).
Proof.
  assert (H : Forall (fun s => typed s = true) [keynote; workshop])
    by (repeat constructor).
  split; [exact H | exact (calendar_one_event_per_session _ H)].
Defined.

(** Two plain sessions: two events, one time zone block, two UIDs. *)
Example calendar_of_two_sessions :
  (fun doc => (count_lines "BEGIN:VEVENT" doc,
               count_lines "BEGIN:VTIMEZONE" doc))
    <$> ics_document [keynote; workshop] = Ok (2, 1)
  ∧ event_uid <$> [keynote; workshop]
    = ["12@wordcamp-favorites"; "34@wordcamp-favorites"]%string.
Proof. split; vm_compute; reflexivity. Qed.

(** Without the condition on line feeds the count of marker lines can
    exceed the number of sessions: the fields are inserted as they are. *)
Example line_feed_in_title_adds_marker :
  plain two_line_title = false
  ∧ count_lines "BEGIN:VEVENT" <$> ics_document [two_line_title] = Ok 2.
Proof. split; vm_compute; reflexivity. Qed.

(** The file named by the caller is replaced by the document. *)
Lemma generate_ics_calendar_overwrites sessions output_file fs doc :
  ics_document sessions = Ok doc →
  ∃ fs', generate_ics_calendar sessions output_file fs = Ok fs'
    ∧ fs' !! output_file = Some doc
    ∧ ∀ other, other ≠ output_file → fs' !! other = fs !! other.
Proof.
  intros H. unfold generate_ics_calendar. rewrite H. simpl.
  eexists. split; [done |]. split; [apply lookup_insert_eq |].
  intros other Hne. by apply lookup_insert_ne.
Qed.

End Calendar.

(** ** More on the URL interpreter *)
Section QueryFields.

Lemma add_pair_lookup parsed nv k :
  add_pair parsed nv !! k
  = if decide (nv.1 = k) then Some (default [] (parsed !! k) ++ [nv.2])
    else parsed !! k.
Proof.
  unfold add_pair. destruct (decide (nv.1 = k)) as [<-|Hne].
  - destruct (parsed !! nv.1) as [vs|] eqn:E; by rewrite lookup_insert_eq.
  - destruct (parsed !! nv.1); by rewrite lookup_insert_ne.
Qed.

Lemma foldl_add_pair_lookup pairs parsed k :
  foldl add_pair parsed pairs !! k
  = match values_of k pairs with
    | [] => parsed !! k
    | vs => Some (default [] (parsed !! k) ++ vs)
    end.
Proof.
  revert parsed. induction pairs as [|nv pairs IH]; intros parsed; [done |].
  simpl. rewrite IH, add_pair_lookup. unfold values_of. simpl.
  destruct (decide (nv.1 = k)); simpl; [| done].
  destruct (omap _ pairs) as [|v vs]; simpl; [done |].
  by rewrite <- app_assoc.
Qed.

(** [parse_qs] maps a name to the values of its fields, in order. *)
Lemma parse_qs_lookup qs k :
  parse_qs qs !! k
  = match values_of k (parse_qsl qs) with
    | [] => None
    | vs => Some vs
    end.
Proof.
  unfold parse_qs. rewrite foldl_add_pair_lookup, lookup_empty.
  by destruct (values_of k (parse_qsl qs)).
Qed.

(** X1.  The identifiers come from the first field of the query that is
    called [fav-sessions] and has a value: its value is split on commas and
    the tokens are trimmed; further fields of that name are not read.  A
    query without such a field gives no identifier. *)
Theorem favorite_ids_from_first_field url :
  extract_favorite_ids url
  = match values_of "fav-sessions" (parse_qsl (query (urlparse url))) with
    | [] => []
    | first :: _ => PyStr.strip <$> PyStr.split "," first
    end.
Proof.
  unfold extract_favorite_ids, fav_sessions. rewrite parse_qs_lookup.
  by destruct (values_of _ _).
Qed.

Example favorite_ids_repeated_field :
  extract_favorite_ids
    "https://us.wordcamp.org/2025/schedule/?fav-sessions=1,2&fav-sessions=3"
  = ["1"; "2"]%string
  ∧ extract_favorite_ids
      "https://us.wordcamp.org/2025/schedule/?fav-sessions=&x=1"
    = [].
Proof. split; vm_compute; reflexivity. Qed.

End QueryFields.

Section Trimming.

Lemma free_of_single c s :
  free_of (String c EmptyString) s = true ↔ PyStr.in_chars c s = false.
Proof.
  unfold free_of. induction s as [|d s IH]; simpl; [done |].
  rewrite orb_false_r, (Ascii.eqb_sym c d), andb_true_iff, IH.
  rewrite negb_true_iff, orb_false_iff. done.
Qed.

Lemma forallb_lstrip_by p q s :
  PyStr.forallb p s = true → PyStr.forallb p (PyStr.lstrip_by q s) = true.
Proof.
  induction s as [|c s IH]; simpl; [done |].
  intros [Hc Hs]%andb_prop. destruct (q c); [by apply IH |].
  simpl. by rewrite Hc, Hs.
Qed.

Lemma forallb_rstrip_by p q s :
  PyStr.forallb p s = true → PyStr.forallb p (PyStr.rstrip_by q s) = true.
Proof.
  induction s as [|c s IH]; simpl; [done |].
  intros [Hc Hs]%andb_prop.
  destruct (PyStr.is_empty _ && q c); [done |]. simpl.
  by rewrite Hc, IH.
Qed.

Lemma forallb_strip p s :
  PyStr.forallb p s = true → PyStr.forallb p (PyStr.strip s) = true.
Proof. intros H. by apply forallb_lstrip_by, forallb_rstrip_by. Qed.

Lemma split_tokens_free sep s :
  Forall (fun tok => free_of (String sep EmptyString) tok = true)
    (PyStr.split sep s).
Proof.
  induction s as [|c s IH]; simpl; [by constructor |].
  destruct (Ascii.eqb_spec c sep) as [->|Hne]; [by constructor |].
  pose proof (split_nonempty sep s) as Hnil.
  destruct (PyStr.split sep s) as [|tok toks]; [done |].
  apply Forall_cons in IH as [Htok Htoks]. constructor; [| done].
  unfold free_of in *. cbn [PyStr.forallb]. rewrite Htok. simpl.
  rewrite orb_false_r. by destruct (Ascii.eqb_spec c sep).
Qed.

(** What [rstrip_by] leaves does not end with a character it removes. *)
Lemma last_char_rstrip_by q s c :
  last_char (PyStr.rstrip_by q s) = Some c → q c = false.
Proof.
  induction s as [|d s IH]; simpl; [done |].
  destruct (PyStr.rstrip_by q s) as [|e r] eqn:E; simpl.
  - destruct (q d) eqn:Hd; simpl; [done |]. by intros [= <-].
  - simpl in IH. destruct (last_char r); [done |]. apply IH.
Qed.

Lemma rstrip_by_fixed q s :
  (∀ c, last_char s = Some c → q c = false) → PyStr.rstrip_by q s = s.
Proof.
  induction s as [|d s IH]; simpl; [done |]. intros H.
  rewrite IH by (intros c Hc; apply H; by rewrite Hc).
  destruct s as [|e s]; simpl; [| done].
  by rewrite (H d eq_refl).
Qed.

Lemma last_char_lstrip_by q s c :
  last_char (PyStr.lstrip_by q s) = Some c → last_char s = Some c.
Proof.
  induction s as [|d s IH]; simpl; [done |].
  destruct (q d); [| done]. intros H. by rewrite (IH H).
Qed.

Lemma lstrip_by_idemp q s :
  PyStr.lstrip_by q (PyStr.lstrip_by q s) = PyStr.lstrip_by q s.
Proof.
  induction s as [|d s IH]; simpl; [done |].
  destruct (q d) eqn:Hd; [done |]. simpl. by rewrite Hd.
Qed.

(** Trimming a trimmed text changes nothing. *)
Lemma strip_idemp s : PyStr.strip (PyStr.strip s) = PyStr.strip s.
Proof.
  unfold PyStr.strip.
  rewrite (rstrip_by_fixed _ (PyStr.lstrip_by _ _)); [apply lstrip_by_idemp |].
  intros c Hc. apply last_char_lstrip_by in Hc.
  by apply last_char_rstrip_by in Hc.
Qed.

Lemma favorite_ids_trimmed url :
  Forall (fun id => PyStr.strip id = id ∧ PyStr.in_chars "," id = false)
    (extract_favorite_ids url).
Proof.
  unfold extract_favorite_ids. destruct (fav_sessions url) as [|v rest];
    [done |].
  apply Forall_fmap. eapply Forall_impl; [apply split_tokens_free |].
  intros tok Htok. simpl. split; [apply strip_idemp |].
  apply free_of_single. by apply forallb_strip.
Qed.

(** X2.  Every identifier is trimmed (trimming it again changes nothing)
    and holds no comma, and the list is empty only when the URL has no
    favourites value at all. *)
Theorem favorite_ids_well_formed url :
  Forall (fun id => PyStr.strip id = id ∧ PyStr.in_chars "," id = false)
    (extract_favorite_ids url)
  ∧ (extract_favorite_ids url = [] ↔ fav_sessions url = []).
Proof.
  split; [apply favorite_ids_trimmed |].
  unfold extract_favorite_ids. destruct (fav_sessions url) as [|v rest];
    [done |].
  split; [| done]. intros H%fmap_nil_inv. by apply split_nonempty in H.
Qed.

Lemma join_split sep toks :
  toks ≠ [] →
  Forall (fun tok => PyStr.in_chars sep tok = false) toks →
  PyStr.split sep (PyStr.join (String sep EmptyString) toks) = toks.
Proof.
  intros Hne H. induction H as [|tok toks Htok Htoks IH]; [done |].
  destruct toks as [|tok' toks]; [by apply split_no_sep |].
  change (PyStr.join _ (tok :: tok' :: toks))
    with (tok +:+ String sep (PyStr.join (String sep EmptyString) (tok' :: toks))).
  rewrite split_app, IH by done. by rewrite split_no_sep.
Qed.

(** X3.  The include filter of every request made for the identifiers of
    a URL reads back, split on commas, as the identifiers of its chunk. *)
Theorem include_filter_round_trip url api chunk :
  chunk ∈ chunks (extract_favorite_ids url) →
  PyStr.split "," (include (chunk_request api chunk)) = chunk.
Proof.
  intros Hin. simpl. apply list_elem_of_lookup in Hin as [k Hk].
  pose proof (chunk_lookup _ _ _ Hk) as (-> & Hlen & _).
  apply join_split.
  - intros E. rewrite E in Hlen. simpl in Hlen. lia.
  - apply Forall_take, Forall_drop.
    eapply Forall_impl; [apply favorite_ids_trimmed | by intros id [_ ?]].
Qed.

Lemma include_filter_round_trip_witness :
  PyStr.split ","
    (include (chunk_request "https://us.wordcamp.org/2025/wp-json/wp/v2/sessions"
                ["12"; "34"]%string))
  = ["12"; "34"]%string.
Proof.
  apply (include_filter_round_trip
           "https://us.wordcamp.org/2025/schedule/?fav-sessions=12,34").
  vm_compute. left.
Defined.

End Trimming.

(** ** The URL interpreter on URLs of the usual form *)
Section ScheduleUrl.

Lemma free_of_in_chars chars s c :
  free_of chars s = true → PyStr.in_chars c chars = true →
  PyStr.in_chars c s = false.
Proof.
  unfold free_of. induction s as [|d s IH]; [done |].
  cbn [PyStr.forallb PyStr.in_chars]. intros [Hd Hs]%andb_prop Hc.
  rewrite (IH Hs Hc), orb_false_r.
  destruct (Ascii.eqb_spec c d) as [->|]; [| done].
  by rewrite Hc in Hd.
Qed.









End ScheduleUrl.

(** ** The API base never ends with a slash *)
Section TrailingSlash.

Lemma last_char_append a b :
  last_char (a +:+ b)
  = match last_char b with
    | Some c => Some c
    | None => last_char a
    end.
Proof.
  induction a as [|x a IH]; simpl; [by destruct (last_char b) |].
  rewrite IH. by destruct (last_char b), (last_char a).
Qed.

Lemma last_char_None s : last_char s = None → s = EmptyString.
Proof. destruct s as [|c s]; simpl; [done |]. by destruct (last_char s). Qed.

Lemma last_char_forallb p s c :
  PyStr.forallb p s = true → last_char s = Some c → p c = true.
Proof.
  induction s as [|d s IH]; simpl; [done |].
  intros [Hd Hs]%andb_prop. destruct (last_char s) as [e|].
  - intros [= <-]. by apply IH.
  - by intros [= <-].
Qed.

Lemma splitnetloc_free s : free_of "/?#" (splitnetloc s).1 = true.
Proof.
  unfold free_of. induction s as [|c s IH]; [done |].
  cbn [splitnetloc]. destruct (PyStr.in_chars c "/?#") eqn:Hc; [done |].
  destruct (splitnetloc s) as [host tail]. cbn [fst PyStr.forallb] in *.
  by rewrite Hc, IH.
Qed.

(** The two outcomes of the test for a leading [//]. *)
Lemma authority_cases (u : string) :
  match u with
  | String "/" (String "/" rest) => splitnetloc rest
  | _ => (EmptyString, u)
  end = (EmptyString, u)
  ∨ ∃ rest,
      match u with
      | String "/" (String "/" rest) => splitnetloc rest
      | _ => (EmptyString, u)
      end = splitnetloc rest.
Proof.
  destruct u as [|a u]; [by left |].
  destruct a as [[] [] [] [] [] [] [] []]; try by left.
  destruct u as [|b u]; [by left |].
  destruct b as [[] [] [] [] [] [] [] []]; try by left.
  right. by exists u.
Qed.

Lemma netloc_urlsplit url : free_of "/?#" (netloc (urlsplit url)) = true.
Proof.
  unfold urlsplit. destruct (split_scheme _) as [sch u].
  destruct (authority_cases u) as [-> | [rest ->]].
  - by destruct (split_at "#" u) as [u1 frag], (split_at "?" u1).
  - pose proof (splitnetloc_free rest) as H.
    destruct (splitnetloc rest) as [loc u1].
    by destruct (split_at "#" u1) as [u2 frag], (split_at "?" u2).
Qed.

Lemma netloc_urlparse url : netloc (urlparse url) = netloc (urlsplit url).
Proof.
  unfold urlparse. destruct (_ && _); [| done].
  by destruct (splitparams _).
Qed.

(** X5.  When the URL names a host, the API base does not end with a
    slash, whatever the path: the resource path appended to it starts with
    the only slash at the join. *)
Theorem base_url_no_trailing_slash url :
  netloc (urlparse url) ≠ EmptyString →
  last_char (get_wordcamp_base_url url) ≠ Some "/"%char
  ∧ api_url_of (get_wordcamp_base_url url)
    = get_wordcamp_base_url url +:+ "/wp-json/wp/v2/sessions".
Proof.
  intros Hhost. split; [| done]. unfold get_wordcamp_base_url.
  rewrite !last_char_append.
  destruct (last_char (PyStr.rstrip _ _)) as [c|] eqn:Hp.
  - apply last_char_rstrip_by in Hp. intros [= ->]. done.
  - assert (Hfree : free_of "/?#" (netloc (urlparse url)) = true)
      by (rewrite netloc_urlparse; apply netloc_urlsplit).
    destruct (last_char (netloc (urlparse url))) as [c|] eqn:Hn.
    + intros [= ->]. by apply (last_char_forallb _ _ _ Hfree) in Hn.
    + by apply last_char_None in Hn.
Qed.

Lemma base_url_no_trailing_slash_witness :
  last_char (get_wordcamp_base_url "https://central.wordcamp.org/schedule/")
    ≠ Some "/"%char
  ∧ api_url_of (get_wordcamp_base_url "https://central.wordcamp.org/schedule/")
    = get_wordcamp_base_url "https://central.wordcamp.org/schedule/"
        +:+ "/wp-json/wp/v2/sessions".
Proof. apply base_url_no_trailing_slash. vm_compute. discriminate. Defined.

End TrailingSlash.

(** ** The fetch against an arbitrary host *)
Section AnyHost.
Context {World : Type} (http_get : World → request → response * World).

Lemma iterate_raises v e : iterate v = Raise e → e = TypeError.
Proof. destruct v; simpl; intros H; by simplify_eq. Qed.

(** The loop against any host: it returns when no answered body makes
    [extend] raise, and raises [TypeError] otherwise. *)
Lemma fetch_loop_any_host api ids indices st :
  let reqs :=
    (fun i => chunk_request api (slice ids i (i + chunk_size))) <$> indices in
  let out := run http_get (world st) reqs in
  fetch_loop http_get api ids indices st
  = if forallb harmless out.1.*2
    then Ok (mkFetched (all_sessions st ++ concat (items_of <$> out.1.*2))
                       (exchanges st ++ out.1) out.2)
    else Raise TypeError.
Proof.
  revert st. induction indices as [|i rest IH]; intros st; simpl.
  - rewrite !app_nil_r. by destruct st.
  - unfold fetch_chunk.
    destruct (http_get (world st) _) as [resp w1] eqn:E. simpl.
    destruct resp as [|v]; simpl.
    + rewrite IH. simpl. destruct (run http_get w1 _) as [log w2]. simpl.
      unfold fmap. destruct (forallb harmless _); [| done].
      by rewrite <- !app_assoc.
    + destruct (iterate v) as [items|e] eqn:Hv; simpl.
      * rewrite IH. simpl. destruct (run http_get w1 _) as [log w2]. simpl.
        rewrite Hv. unfold fmap. destruct (forallb harmless _); [| done].
        by rewrite <- !app_assoc.
      * pose proof (iterate_raises _ _ Hv) as ->.
        destruct (run http_get w1 _) as [log w2]. simpl.
        by rewrite Hv.
Qed.

Lemma chunk_requests_eq api ids :
  (fun i => chunk_request api (slice ids i (i + chunk_size)))
    <$> py_range 0 (length ids) chunk_size
  = chunk_request api <$> chunks ids.
Proof.
  unfold chunks.
  rewrite <- (list_fmap_compose (fun i => slice ids i (i + chunk_size))
                (chunk_request api)).
  reflexivity.
Qed.

(** X6.  Against any host the fetch sends the chunk requests in order; it
    returns when every answered body can be iterated, with the items of
    the answered bodies in order (the items of a list, the keys of an
    object, the characters of a string) and nothing for a failed batch;
    when some answered body is a number, a truth value or null, the
    [TypeError] of [extend] is not caught and the fetch raises it. *)
Theorem fetch_against_any_host base ids w :
  let out := run http_get w (chunk_request (api_url_of base) <$> chunks ids) in
  fetch_session_data http_get base ids w
  = if forallb harmless out.1.*2
    then Ok (mkFetched (concat (items_of <$> out.1.*2)) out.1 out.2)
    else Raise TypeError.
Proof.
  intros out. unfold fetch_session_data. rewrite fetch_loop_any_host.
  cbn [world all_sessions exchanges]. rewrite chunk_requests_eq.
  fold out. destruct (forallb harmless out.1.*2); [| done].
  by rewrite !app_nil_l.
Qed.

(** X7.  Whenever the fetch returns, it has sent exactly one request per
    started group of ten identifiers (none for an empty list), each to the
    sessions resource under the API base, with a time-out of 30 and with
    the comma-joined identifiers of its chunk as include filter. *)
Theorem fetch_requests base ids w r :
  fetch_session_data http_get base ids w = Ok r →
  length (exchanges r) = (length ids + 9) / 10
  ∧ (ids = [] → exchanges r = [])
  ∧ ∀ k req, (exchanges r).*1 !! k = Some req →
      url req = base +:+ "/wp-json/wp/v2/sessions"
      ∧ timeout req = 30%Z
      ∧ include req = PyStr.join "," (take 10 (drop (10 * k) ids)).
Proof.
  unfold fetch_session_data. rewrite fetch_loop_any_host.
  cbn [world all_sessions exchanges]. rewrite chunk_requests_eq.
  destruct (forallb harmless _); [| done]. intros [= <-].
  cbn [exchanges]. rewrite ?app_nil_l.
  assert (Hreqs := run_requests http_get w
                     (chunk_request (api_url_of base) <$> chunks ids)).
  assert (Hlen : length (run http_get w
                   (chunk_request (api_url_of base) <$> chunks ids)).1
                 = (length ids + 9) / 10).
  { rewrite <- (length_fmap fst), Hreqs, length_fmap, length_chunks.
    unfold chunk_size. f_equal. lia. }
  split; [done |]. split.
  - intros ->. by apply nil_length_inv.
  - intros k req. rewrite Hreqs, list_lookup_fmap.
    intros (chunk & Hk & ->)%fmap_Some.
    apply chunk_lookup in Hk as (-> & _). done.
Qed.

End AnyHost.

Lemma fetch_requests_witness :
  let r := mkFetched [JObj [("id"%string, JInt 1)]]
             [(chunk_request (api_url_of "https://us.wordcamp.org/2025")
                 ["1"; "2"]%string,
               Body (JArr [JObj [("id"%string, JInt 1)]]))]
             ([] : list (option (list json))) in
  length (exchanges r) = (length ["1"; "2"]%string + 9) / 10
  ∧ (["1"; "2"]%string = [] → exchanges r = [])
  ∧ ∀ k req, (exchanges r).*1 !! k = Some req →
      url req = "https://us.wordcamp.org/2025" +:+ "/wp-json/wp/v2/sessions"
      ∧ timeout req = 30%Z
      ∧ include req
        = PyStr.join "," (take 10 (drop (10 * k) ["1"; "2"]%string)).
Proof.
  apply (fetch_requests scripted "https://us.wordcamp.org/2025"
           ["1"; "2"]%string [Some [JObj [("id"%string, JInt 1)]]]).
  reflexivity.
Defined.

(** ** More on the session normaliser *)
Section NormaliserMore.

Lemma location_loop_first m fields dflt :
  location_loop (JObj m) fields dflt
  = Ok (default dflt (head (omap (field_value m) fields))).
Proof.
  induction fields as [|f fields IH]; [done |].
  cbn [location_loop omap list_omap]. rewrite probe_dict. fold (field_value m f).
  rewrite bind_Ok_l. destruct (field_value m f) as [v|]; [done | apply IH].
Qed.

(** X8.  For every raw record whose metadata is a mapping, the location of
    the canonical record is the value of the first location field, in
    probe order, that is present with a non-empty value; the values of
    later fields are not used, and without such a field the location is the
    placeholder. *)
Theorem location_first_field_wins raws sessions i d m s :
  extract_session_info raws = Ok sessions →
  raws !! i = Some (JObj d) →
  sessions !! i = Some s →
  dict_get "meta" d = Some (JObj m) →
  Session.location s
  = default (JStr "Unknown Location")
      (head (omap (field_value m) location_fields)).
Proof.
  intros Hall Hraw Hs Hmeta.
  apply extract_session_info_Forall2 in Hall.
  pose proof (Forall2_lookup_lr _ _ _ _ _ _ Hall Hraw Hs) as Hone.
  apply extract_one_inv in Hone
    as (d' & t & sp0 & sp1 & loc & [= <-] & _ & _ & _ & Hloc & ->).
  unfold find_location in Hloc. rewrite Hmeta, location_loop_first in Hloc.
  by injection Hloc as <-.
Qed.

Lemma location_first_field_wins_witness :
  Session.location
    (Session.mk (JInt 5) (JStr "Unknown Title") [JStr "Unknown Speaker"]
       (JStr "Hall A") (Some (JStr EmptyString)))
  = default (JStr "Unknown Location")
      (head (omap (field_value [("location", JStr "Room 2");
                                ("_wcpt_track_id", JInt 0);
                                ("track", JStr "Hall A")]%string)
               location_fields)).
Proof.
  apply (location_first_field_wins
           [JObj [("id", JInt 5);
                  ("meta", JObj [("location", JStr "Room 2");
                                 ("_wcpt_track_id", JInt 0);
                                 ("track", JStr "Hall A")])]]%string
           _ 0 _ _ _ eq_refl eq_refl eq_refl eq_refl).
Defined.

(** X9.  Normalisation gives no partial result: the first record whose
    normalisation raises makes the whole call raise the same exception,
    whatever follows it; a record that is not a JSON object raises
    [AttributeError]. *)
Theorem normalise_stops_at_first_error pre raw post e :
  Forall (fun r => ∃ s, extract_one r = Ok s) pre →
  extract_one raw = Raise e →
  extract_session_info (pre ++ raw :: post) = Raise e
  ∧ ((∀ d, raw ≠ JObj d) → e = AttributeError).
Proof.
  intros Hpre Hraw. split.
  - induction Hpre as [|r pre [s Hs] _ IH]; simpl.
    + by rewrite Hraw.
    + by rewrite Hs, bind_Ok_l, IH.
  - intros Hobj. destruct raw; simpl in Hraw; try by simplify_eq.
    by destruct (Hobj fields).
Qed.

Lemma normalise_stops_at_first_error_witness :
  extract_session_info ([wp_keynote] ++ JArr [] :: [wp_keynote])
  = Raise AttributeError
  ∧ ((∀ d, JArr [] ≠ JObj d) → AttributeError = AttributeError).
Proof.
  apply normalise_stops_at_first_error; [| reflexivity].
  repeat constructor. by eexists.
Defined.

Lemma span_names_ok s : PyStr.forallb Re.name_char (Re.span_names s).1 = true.
Proof.
  induction s as [|c s IH]; [done |]. cbn [Re.span_names].
  destruct (Re.name_char c) eqn:Hc; [| done].
  destruct (Re.span_names s) as [g n]. cbn [fst PyStr.forallb] in *.
  by rewrite Hc, IH.
Qed.

Lemma after_colon_ok s g n :
  Re.after_colon s = Some (g, n) →
  g ≠ EmptyString ∧ PyStr.forallb Re.name_char g = true.
Proof.
  revert g n. induction s as [|c s IH]; intros g n; [done |].
  cbn [Re.after_colon].
  assert (Hhere : (if Re.name_char c then Some (Re.span_names (String c s))
                   else None) = Some (g, n) →
                  g ≠ EmptyString ∧ PyStr.forallb Re.name_char g = true).
  { destruct (Re.name_char c) eqn:Hc; [| done]. intros H.
    assert (Hsp : Re.span_names (String c s) = (g, n)) by congruence.
    pose proof (span_names_ok (String c s)) as Hok. rewrite Hsp in Hok.
    split; [| done]. cbn [Re.span_names] in Hsp. rewrite Hc in Hsp.
    destruct (Re.span_names s). by injection Hsp as <- _. }
  destruct (PyStr.isspace c); [| done].
  destruct (Re.after_colon s) as [[g' n']|]; [| done].
  intros [= <- _]. by eapply IH.
Qed.

Lemma match_at_ok s g n :
  Re.match_at s = Some (g, n) →
  g ≠ EmptyString ∧ PyStr.forallb Re.name_char g = true.
Proof.
  unfold Re.match_at. destruct (Re.prefix_ci _ _); [| done].
  destruct (PyStr.drop 7 s) as [|c r1]; [done |].
  destruct (Ascii.eqb (PyStr.lower_char c) "s").
  - destruct r1 as [|c2 r2]; [done |].
    destruct (Ascii.eqb_spec c2 ":") as [->|Hne].
    + destruct (Re.after_colon r2) as [[g' n']|] eqn:E; [| done].
      intros [= <- _]. by eapply after_colon_ok.
    + intros H. exfalso. revert H.
      by destruct c2 as [[] [] [] [] [] [] [] []].
  - destruct (Ascii.eqb c ":"); [| done].
    destruct (Re.after_colon r1) as [[g' n']|] eqn:E; [| done].
    intros [= <- _]. by eapply after_colon_ok.
Qed.

Lemma scan_ok skip s :
  Forall (fun g => g ≠ EmptyString ∧ PyStr.forallb Re.name_char g = true)
    (Re.scan skip s).
Proof.
  revert skip. induction s as [|c s IH]; intros skip; [constructor |].
  cbn [Re.scan]. destruct skip as [|k]; [| apply IH].
  destruct (Re.match_at (String c s)) as [[g n]|] eqn:E; [| apply IH].
  constructor; [by eapply match_at_ok | apply IH].
Qed.

(** X10.  The speakers read from the rendered content are strings; each is
    trimmed, has no [<] and no line feed in it, and so fits on the
    description line of its event. *)
Theorem content_speakers_clean content_field found :
  speakers_from_content content_field = Ok found →
  Forall (fun v => ∃ name, v = JStr name
                    ∧ PyStr.strip name = name
                    ∧ PyStr.in_chars "<" name = false
                    ∧ one_line name = true) found.
Proof.
  unfold speakers_from_content. intros H.
  apply bind_Ok in H as (content & _ & H).
  destruct content as [| | |text| |]; try done. injection H as <-.
  apply Forall_fmap. eapply Forall_impl; [apply scan_ok |].
  intros g [_ Hg]. simpl. exists (PyStr.strip g).
  split; [done |]. split; [apply strip_idemp |].
  apply forallb_strip in Hg.
  change (PyStr.forallb Re.name_char (PyStr.strip g))
    with (free_of (String "<" (String "010" EmptyString)) (PyStr.strip g))
    in Hg.
  unfold one_line.
  by rewrite (free_of_in_chars _ _ "<" Hg eq_refl),
    (free_of_in_chars _ _ "010" Hg eq_refl).
Qed.

Lemma content_speakers_clean_witness :
  Forall (fun v => ∃ name, v = JStr name
                    ∧ PyStr.strip name = name
                    ∧ PyStr.in_chars "<" name = false
                    ∧ one_line name = true)
    [JStr "Alice, Bob"; JStr "Cy"].
Proof.
  apply (content_speakers_clean
           (JObj [("rendered",
                   JStr "<p>Speakers: Alice, Bob </p><p>speaker:Cy</p>")])%string).
  reflexivity.
Defined.

(** X11.  Normalisation returns on every sequence of records of the usual
    shape, with one canonical record per raw record. *)
Theorem normalise_usual_records raws :
  Forall (fun raw => well_shaped raw = true) raws →
  ∃ sessions, extract_session_info raws = Ok sessions
    ∧ length sessions = length raws.
Proof.
  intros H.
  assert (∃ sessions, Forall2 (fun raw s => extract_one raw = Ok s)
                        raws sessions) as [sessions Hs].
  { induction H as [|raw raws Hraw _ [sessions IH]]; [by exists [] |].
    destruct (extract_one_total raw Hraw) as [s Hs].
    exists (s :: sessions). by constructor. }
  exists sessions. split; [by apply extract_session_info_Forall2 |].
  symmetry. by eapply Forall2_length.
Qed.

Lemma normalise_usual_records_witness :
  ∃ sessions, extract_session_info [wp_keynote; undated] = Ok sessions
    ∧ length sessions = length [wp_keynote; undated].
Proof. apply normalise_usual_records. by repeat constructor. Defined.

End NormaliserMore.

(** ** More on the calendar emitter *)
Section CalendarMore.

Lemma str_items_strings vs names :
  str_items vs = Ok names → forallb is_string vs = true.
Proof.
  revert names. induction vs as [|v vs IH]; intros names; [done |].
  destruct v; try done. cbn [str_items forallb is_string].
  intros H. apply bind_Ok in H as (ss & Hss & _). by eapply IH.
Qed.

Lemma event_lines_returns_typed s ls :
  event_lines s = Ok ls → typed s = true.
Proof.
  unfold event_lines, speaker_list, event_dtstart. intros H.
  apply bind_Ok in H as (speakers & H1 & H).
  apply bind_Ok in H1 as (names & Hnames & _).
  apply bind_Ok in H as (dtstart & Hstart & _).
  unfold typed. rewrite (str_items_strings _ _ Hnames).
  by destruct (Session.datetime s) as [[| | |stamp| |]|].
Qed.

Lemma render_loop_returns sessions ics_content doc :
  render_loop sessions ics_content = Ok doc →
  Forall (fun s => typed s = true) sessions.
Proof.
  revert ics_content. induction sessions as [|s sessions IH];
    intros acc; [constructor |].
  cbn [render_loop]. intros H. apply bind_Ok in H as (block & Hb & H).
  constructor; [| by eapply IH].
  unfold event_block in Hb. apply bind_Ok in Hb as (ls & Hls & _).
  by eapply event_lines_returns_typed.
Qed.

Lemma typed_blocks sessions :
  Forall (fun s => typed s = true) sessions →
  ∃ blocks, Forall2 (fun s b => event_block s = Ok b) sessions blocks.
Proof.
  induction 1 as [|s sessions Hs _ [blocks IH]]; [by exists [] |].
  destruct (event_block_typed s Hs) as (ls & _ & Hb).
  exists (unlines ls :: blocks). by constructor.
Qed.

(** X12.  The emitter returns a document exactly when every session has
    string speakers and a start time that is a string or absent; any other
    session makes it raise, and nothing is returned. *)
Theorem calendar_returns_iff_typed sessions :
  (∃ doc, ics_document sessions = Ok doc)
  ↔ Forall (fun s => typed s = true) sessions.
Proof.
  split.
  - intros [doc H]. unfold ics_document in H.
    apply bind_Ok in H as (body & Hbody & _).
    by eapply render_loop_returns.
  - intros H. destruct (typed_blocks _ H) as [blocks Hb].
    eexists. by apply ics_document_blocks.
Qed.

Lemma in_chars_replace_gone c s :
  PyStr.in_chars c (PyStr.replace c EmptyString s) = false.
Proof.
  induction s as [|d s IH]; [done |]. cbn [PyStr.replace].
  destruct (Ascii.eqb_spec d c) as [->|Hne]; [done |].
  cbn [PyStr.in_chars]. rewrite IH, orb_false_r.
  by destruct (Ascii.eqb_spec c d) as [->|].
Qed.

Lemma in_chars_replace_keep c old new s :
  PyStr.in_chars c new = false → PyStr.in_chars c s = false →
  PyStr.in_chars c (PyStr.replace old new s) = false.
Proof.
  intros Hnew. induction s as [|d s IH]; [done |].
  cbn [PyStr.replace PyStr.in_chars]. intros [Hd Hs]%orb_false_iff.
  destruct (Ascii.eqb d old).
  - by rewrite in_chars_append, Hnew, IH.
  - cbn [PyStr.in_chars]. by rewrite Hd, IH.
Qed.

Lemma compact_no_separators v t :
  compact v = Ok t →
  PyStr.in_chars "-" t = false ∧ PyStr.in_chars ":" t = false.
Proof.
  destruct v as [| | |stamp| |]; try done.
  rewrite compact_str. intros [= <-]. split.
  - apply in_chars_replace_keep; [done | apply in_chars_replace_gone].
  - apply in_chars_replace_gone.
Qed.

(** X13.  The start and end stamps of every emitted event hold neither
    [-] nor [:], whatever the start time of the session. *)
Theorem stamps_have_no_separators s t :
  event_dtstart s = Ok t ∨ event_dtend s = Ok t →
  PyStr.in_chars "-" t = false ∧ PyStr.in_chars ":" t = false.
Proof.
  unfold event_dtstart, event_dtend.
  intros [H | H]; by apply compact_no_separators in H.
Qed.

Lemma stamps_have_no_separators_witness :
  PyStr.in_chars "-" "20250827T090000" = false
  ∧ PyStr.in_chars ":" "20250827T090000" = false.
Proof.
  apply (stamps_have_no_separators keynote). left. reflexivity.
Defined.


End CalendarMore.

(** ** From the raw records to the calendar *)
Section Pipeline.

Lemma probe_non_dict meta field o :
  (∀ m, meta ≠ JObj m) → probe meta field = Ok o → o = None.
Proof.
  intros Hm. unfold probe. destruct meta as [| | |t|l|m]; try done.
  - cbn [py_in]. rewrite bind_Ok_l.
    destruct (PyStr.contains field t); [done | by intros [= <-]].
  - cbn [py_in]. rewrite bind_Ok_l.
    destruct (existsb (is_str field) l); [done | by intros [= <-]].
  - by destruct (Hm m).
Qed.

Lemma speakers_loop_non_dict meta fields acc sp :
  (∀ m, meta ≠ JObj m) →
  speakers_loop meta fields acc = Ok sp → sp = acc.
Proof.
  intros Hm. revert acc. induction fields as [|f fields IH]; intros acc.
  - by intros [= <-].
  - cbn [speakers_loop]. intros H. apply bind_Ok in H as (o & Ho & H).
    apply (probe_non_dict _ _ _ Hm) in Ho as ->. by apply IH.
Qed.

Lemma speakers_from_content_strings content_field found :
  speakers_from_content content_field = Ok found →
  forallb is_string found = true.
Proof.
  unfold speakers_from_content. intros H.
  apply bind_Ok in H as (content & _ & H).
  destruct content as [| | |text| |]; try done. injection H as <-.
  by induction (Re.findall_speakers text).
Qed.

(** The record normalised from a renderable raw record is typed. *)
Lemma renderable_typed raw s :
  extract_one raw = Ok s → renderable raw = true → typed s = true.
Proof.
  intros H Hr.
  apply extract_one_inv in H
    as (d & t & sp0 & sp1 & loc & -> & _ & H0 & H1 & _ & ->).
  unfold renderable in Hr. apply andb_prop in Hr as [Hmeta Hdate].
  unfold typed. cbn [Session.speakers Session.datetime].
  assert (Hsp0 : forallb is_string sp0 = true).
  { unfold meta_speakers in H0.
    destruct (dict_get "meta" d) as [meta|]; [| by injection H0 as <-].
    assert (Hnd : (∀ m, meta ≠ JObj m) → sp0 = [])
      by (intros Hm; by eapply speakers_loop_non_dict).
    destruct meta as [| | | | |m]; try (by rewrite Hnd).
    rewrite speakers_loop_dict in H0. by injection H0 as <-. }
  assert (Hsp1 : forallb is_string sp1 = true).
  { unfold content_fallback in H1. destruct sp0 as [|x sp0].
    - destruct (dict_get "content" d) as [cf|]; [| by injection H1 as <-].
      apply bind_Ok in H1 as (found & Hf & H1).
      apply speakers_from_content_strings in Hf.
      destruct found; by injection H1 as <-.
    - by injection H1 as <-. }
  apply andb_true_intro. split.
  - by destruct sp1.
  - by destruct (dict_get "date" d) as [[| | |stamp| |]|].
Qed.

Lemma usual_records_typed raws :
  Forall (fun raw => well_shaped raw = true ∧ renderable raw = true) raws →
  ∃ sessions,
    Forall2 (fun raw s => extract_one raw = Ok s) raws sessions
    ∧ Forall (fun s => typed s = true) sessions.
Proof.
  induction 1 as [|raw raws [Hw Hr] _ (sessions & IH1 & IH2)];
    [by exists [] |].
  destruct (extract_one_total raw Hw) as [s Hs].
  exists (s :: sessions). split; [by constructor |].
  constructor; [by eapply renderable_typed | done].
Qed.

(** X15.  For raw records of the usual shape whose speaker metadata holds
    strings only and whose date, if any, is a string, normalising and then
    emitting always returns: the document is the header, one event entry
    per raw record in input order, and the footer. *)
Theorem records_to_calendar raws :
  Forall (fun raw => well_shaped raw = true ∧ renderable raw = true) raws →
  ∃ sessions blocks,
    extract_session_info raws = Ok sessions
    ∧ Forall (fun s => typed s = true) sessions
    ∧ Forall2 (fun s b => event_block s = Ok b) sessions blocks
    ∧ length blocks = length raws
    ∧ ics_document sessions
      = Ok (ics_header +:+ foldr String.append ics_footer blocks).
Proof.
  intros H. destruct (usual_records_typed raws H) as (sessions & Hs & Ht).
  destruct (typed_blocks _ Ht) as [blocks Hb].
  exists sessions, blocks.
  split; [by apply extract_session_info_Forall2 |].
  split; [done |]. split; [done |].
  split; [| by apply ics_document_blocks].
  rewrite <- (Forall2_length _ _ _ Hb). symmetry. by eapply Forall2_length.
Qed.

Lemma records_to_calendar_witness :
  ∃ sessions blocks,
    extract_session_info [wp_keynote; undated] = Ok sessions
    ∧ Forall (fun s => typed s = true) sessions
    ∧ Forall2 (fun s b => event_block s = Ok b) sessions blocks
    ∧ length blocks = length [wp_keynote; undated]
    ∧ ics_document sessions
      = Ok (ics_header +:+ foldr String.append ics_footer blocks).
Proof. apply records_to_calendar. by repeat constructor. Defined.

End Pipeline.

(** ** The command line program *)
Section MainProgram.
Context {World : Type} (http_get : World → request → response * World).

Lemma str_items_raises vs :
  forallb is_string vs = false → str_items vs = Raise TypeError.
Proof.
  induction vs as [|v vs IH]; [done |].
  destruct v; try done. cbn [forallb is_string str_items andb].
  intros H. by rewrite (IH H).
Qed.


Lemma display_loop_raises sessions :
  Exists (fun s => forallb is_string (Session.speakers s) = false) sessions →
  display_loop sessions = Raise TypeError.
Proof.
  induction 1 as [s sessions Hs | s sessions _ IH]; cbn [display_loop];
    unfold speaker_list.
  - by rewrite (str_items_raises _ Hs).
  - destruct (str_items (Session.speakers s)) as [names|e] eqn:E.
    + by rewrite !bind_Ok_l.
    + destruct (forallb is_string (Session.speakers s)) eqn:Hs.
      * destruct (str_items_typed _ Hs) as (? & _ & E'). congruence.
      * rewrite (str_items_raises _ Hs) in E. by injection E as <-.
Qed.

(** X16.  Started with a number of arguments other than one, or with a
    URL that has no favourites value, the program ends with status 1
    without sending any request and without writing any file. *)
Theorem main_exits_without_favorites argv w fs :
  length argv ≠ 2
  ∨ (∃ prog url, argv = [prog; url] ∧ fav_sessions url = []) →
  main http_get argv w fs = Exited 1 [] fs.
Proof.
  intros [Hlen | (prog & url & -> & Hfav)].
  - by destruct argv as [|a [|b [|c rest]]].
  - unfold main, extract_favorite_ids. by rewrite Hfav.
Qed.

(** X17.  The program writes its file only when it ends with status 0.
    The status is 0 or 1; with status 1, and when an exception ends the
    run, the files are those it started with.  With status 0 the records
    retrieved were normalised, there was at least one, and the file
    [wordcamp_favorites.ics] holds the header, one event entry per
    retrieved record in order, and the footer; no other file changed. *)
Theorem main_endings argv w fs :
  match main http_get argv w fs with
  | Crashed _ fs' => fs' = fs
  | Exited status log fs' =>
      (status = 1%Z ∧ fs' = fs)
      ∨ (status = 0%Z
         ∧ ∃ prog url got sessions blocks,
             argv = [prog; url]
             ∧ fetch_session_data http_get (get_wordcamp_base_url url)
                 (extract_favorite_ids url) w = Ok got
             ∧ log = exchanges got
             ∧ extract_session_info (all_sessions got) = Ok sessions
             ∧ sessions ≠ []
             ∧ length blocks = length (all_sessions got)
             ∧ Forall2 (fun s b => event_block s = Ok b) sessions blocks
             ∧ fs' = <[output_file_name :=
                         ics_header +:+ foldr String.append ics_footer blocks]>
                       fs)
  end.
Proof.
  unfold main. destruct argv as [|prog [|url [|x rest]]]; try by left.
  destruct (extract_favorite_ids url) as [|id ids] eqn:Hids; [by left |].
  destruct (fetch_session_data _ _ _ _) as [got|e] eqn:Hfetch; [| done].
  destruct (all_sessions got) as [|raw raws] eqn:Hdata; [by left |].
  destruct (extract_session_info (raw :: raws)) as [sessions|e] eqn:Hs;
    [| done].
  rewrite bind_Ok_l.
  destruct (display_loop sessions) as [[]|e] eqn:Hd; [| done].
  rewrite bind_Ok_l. unfold generate_ics_calendar.
  destruct (ics_document sessions) as [doc|e] eqn:Hdoc; [| done].
  rewrite bind_Ok_l. right. split; [done |].
  assert (Ht : Forall (fun s => typed s = true) sessions).
  { unfold ics_document in Hdoc. apply bind_Ok in Hdoc as (body & Hb & _).
    by eapply render_loop_returns. }
  destruct (typed_blocks _ Ht) as [blocks Hb].
  rewrite (ics_document_blocks _ _ Hb) in Hdoc. injection Hdoc as <-.
  apply extract_session_info_Forall2 in Hs as Hs2.
  exists prog, url, got, sessions, blocks. rewrite Hids, Hdata.
  split; [done |]. split; [done |]. split; [done |]. split; [done |].
  split; [intros ->; by apply Forall2_nil_inv_r in Hs2 |].
  split; [| done].
  rewrite <- (Forall2_length _ _ _ Hb). symmetry.
  by apply (Forall2_length _ _ _ Hs2).
Qed.

(** X18.  When a retrieved record gives a speaker that is not a string (a
    numeric speaker identifier in the metadata, say), the program is
    ended by a [TypeError] from the speaker list and writes no file. *)
Theorem main_stops_on_non_string_speaker prog url w fs got sessions :
  extract_favorite_ids url ≠ [] →
  fetch_session_data http_get (get_wordcamp_base_url url)
    (extract_favorite_ids url) w = Ok got →
  extract_session_info (all_sessions got) = Ok sessions →
  Exists (fun s => forallb is_string (Session.speakers s) = false) sessions →
  main http_get [prog; url] w fs = Crashed TypeError fs.
Proof.
  intros Hids Hfetch Hs Hbad. unfold main.
  destruct (extract_favorite_ids url) as [|id ids]; [done |].
  rewrite Hfetch.
  destruct (all_sessions got) as [|raw raws].
  - injection Hs as <-. by apply Exists_nil in Hbad.
  - by rewrite Hs, bind_Ok_l, (display_loop_raises _ Hbad).
Qed.


End MainProgram.

Section MainFailures.
Context {World : Type} (http_get : World → request → response * World).
Hypothesis host_down : ∀ w req, (http_get w req).1 = RequestException.

Lemma run_host_down w reqs :
  Forall (fun x => x.2 = RequestException) (run http_get w reqs).1.
Proof.
  revert w. induction reqs as [|req reqs IH]; intros w; [constructor |].
  cbn [run]. pose proof (host_down w req) as Hd.
  destruct (http_get w req) as [resp w1]. specialize (IH w1).
  destruct (run http_get w1 reqs) as [log w2]. by constructor.
Qed.

Lemma favorite_ids_nonempty url :
  fav_sessions url ≠ [] → extract_favorite_ids url ≠ [].
Proof.
  unfold extract_favorite_ids. destruct (fav_sessions url) as [|v rest];
    [done |].
  intros _ H%fmap_nil_inv. by apply split_nonempty in H.
Qed.

(** X20.  When every request fails, the program still sends one request
    per chunk of the favourites, then ends with status 1 and writes no
    file. *)
Theorem main_nothing_retrieved prog url w fs :
  fav_sessions url ≠ [] →
  ∃ log,
    main http_get [prog; url] w fs = Exited 1 log fs
    ∧ length log = (length (extract_favorite_ids url) + 9) / 10
    ∧ Forall (fun x => x.2 = RequestException) log.
Proof.
  intros Hfav%favorite_ids_nonempty. unfold main.
  destruct (extract_favorite_ids url) as [|id ids] eqn:Hids; [done |].
  unfold fetch_session_data. rewrite fetch_loop_any_host.
  cbn [world all_sessions exchanges]. rewrite chunk_requests_eq.
  set (reqs := chunk_request _ <$> chunks (id :: ids)).
  pose proof (run_host_down w reqs) as Hdown.
  pose proof (run_requests http_get w reqs) as Hreqs.
  destruct (run http_get w reqs) as [log w2]. cbn [fst snd] in *.
  assert (Hh : forallb harmless log.*2 = true).
  { clear Hreqs. induction Hdown as [|[req resp] log Hx _ IH]; [done |].
    simpl in Hx. subst resp. apply IH. }
  assert (Hi : concat (items_of <$> log.*2) = []).
  { clear Hreqs Hh. induction Hdown as [|[req resp] log Hx _ IH]; [done |].
    simpl in Hx. subst resp. apply IH. }
  rewrite Hh, Hi. cbn [all_sessions exchanges app].
  exists log. split; [done |]. split; [| done].
  rewrite <- (length_fmap fst), Hreqs. unfold reqs.
  rewrite length_fmap, length_chunks. unfold chunk_size. f_equal. lia.
Qed.

End MainFailures.

Lemma main_exits_without_favorites_witness :
  main always_fails
    ["wordcamp_favorites.py"; "https://us.wordcamp.org/2025/schedule/"]%string
    tt ∅
  = Exited 1 [] ∅.
Proof.
  apply main_exits_without_favorites. right.
  by exists "wordcamp_favorites.py"%string,
    "https://us.wordcamp.org/2025/schedule/"%string.
Defined.

Lemma main_nothing_retrieved_witness :
  ∃ log,
    main always_fails
      ["wordcamp_favorites.py";
       "https://us.wordcamp.org/2025/schedule/?fav-sessions=1834,1952"]%string
      tt ∅
    = Exited 1 log ∅
    ∧ length log
      = (length (extract_favorite_ids
                   "https://us.wordcamp.org/2025/schedule/?fav-sessions=1834,1952")
         + 9) / 10
    ∧ Forall (fun x => x.2 = RequestException) log.
Proof.
  apply (main_nothing_retrieved always_fails); [done |].
  intros H. vm_compute in H. discriminate H.
Defined.

Lemma main_stops_on_non_string_speaker_witness :
  main (always_answers [two_speaker_fields])
    ["wordcamp_favorites.py";
     "https://us.wordcamp.org/2025/schedule/?fav-sessions=7"]%string
    tt ∅
  = Crashed TypeError ∅.
Proof.
  eapply (main_stops_on_non_string_speaker (always_answers [two_speaker_fields])).
  - intros H. vm_compute in H. discriminate H.
  - reflexivity.
  - reflexivity.
  - left. reflexivity.
Defined.


(** A whole run: one favourite, one record, one event in the file. *)
Example main_end_to_end :
  main (always_answers [wp_keynote])
    ["wordcamp_favorites.py";
     "https://us.wordcamp.org/2025/schedule/?fav-sessions=1834"]%string
    tt ∅
  = Exited 0
      [(mkRequest "https://us.wordcamp.org/2025/wp-json/wp/v2/sessions"
          "1834" 30,
        Body (JArr [wp_keynote]))]
      {[ "wordcamp_favorites.ics"%string :=
           ics_header
             +:+ unlines [ "BEGIN:VEVENT";
                           "UID:1834@wordcamp-favorites";
                           "DTSTART;TZID=America/Los_Angeles:20250827T090000";
                           "DTEND;TZID=America/Los_Angeles:20250827T090000";
                           "SUMMARY:Keynote";
                           "DESCRIPTION:Speaker(s): Ann";
                           "LOCATION:Hall A";
                           "END:VEVENT";
                           EmptyString ]%string
             +:+ ics_footer ]}.
Proof. vm_compute. reflexivity. Qed.
